(** * GCTeamMeeting: the availability-intersection and block-consolidation core

    A shallow embedding of [main.py]: the slot grid generator
    ([generate_halfhour_slots]), the label parser ([slot_to_minutes]), the
    hour-block consolidation ([find_hour_blocks]) and the per-day
    intersection ([find_common_slots]), together with the part of the Python
    runtime these functions rest on (exceptions, [str.split], [int],
    [set], [sorted], [dict], [datetime.strptime] / [strftime]). *)

From Stdlib Require Import ZArith List String Ascii Bool Lia Permutation Sorted.
From Equations Require Import Equations.
Import ListNotations.

Local Open Scope string_scope.
Local Open Scope Z_scope.

(** ** The Python runtime the program uses *)

Module Py.

(** The exceptions the modelled functions can raise. *)
Inductive exn : Set :=
| KeyError
| ValueError
| IndexError.

(** A computation returns a value or raises. *)
Inductive result (A : Type) : Type :=
| Ok (a : A)
| Raise (e : exn).
Arguments Ok {A} a.
Arguments Raise {A} e.

Definition bind {A B : Type} (m : result A) (k : A -> result B) : result B :=
  match m with
  | Ok a => k a
  | Raise e => Raise e
  end.

Definition fmap {A B : Type} (f : A -> B) (m : result A) : result B :=
  bind m (fun a => Ok (f a)).

(** [for x in xs: acc = body(acc, x)], stopping at the first exception. *)
Fixpoint for_each {A S : Type} (xs : list A) (body : S -> A -> result S) (acc : S)
  : result S :=
  match xs with
  | [] => Ok acc
  | x :: xs' => bind (body acc x) (for_each xs' body)
  end.

(** [[f(x) for x in xs]], left to right. *)
Fixpoint map_each {A B : Type} (f : A -> result B) (xs : list A) : result (list B) :=
  match xs with
  | [] => Ok []
  | x :: xs' => bind (f x) (fun y => bind (map_each f xs') (fun ys => Ok (y :: ys)))
  end.

(** [xs[i]] for a non-negative index. *)
Definition index {A : Type} (xs : list A) (i : nat) : result A :=
  match nth_error xs i with
  | Some x => Ok x
  | None => Raise IndexError
  end.

(** *** Strings *)

(** [s.split(sep)] for a one-character separator: the first piece and the
    pieces after it. *)
Fixpoint split_pieces (sep : ascii) (s : string) : string * list string :=
  match s with
  | EmptyString => (EmptyString, [])
  | String c s' =>
      let (p, ps) := split_pieces sep s' in
      if Ascii.eqb c sep then (EmptyString, p :: ps) else (String c p, ps)
  end.

Definition split (sep : ascii) (s : string) : list string :=
  let (p, ps) := split_pieces sep s in p :: ps.

Definition is_digit (c : ascii) : bool :=
  let n := nat_of_ascii c in (48 <=? n)%nat && (n <=? 57)%nat.

Definition digit_value (c : ascii) : Z := Z.of_nat (nat_of_ascii c) - 48.

(** The blanks [int] strips: tab, line feed, vertical tab, form feed,
    carriage return and space. *)
Definition is_space (c : ascii) : bool :=
  let n := nat_of_ascii c in ((9 <=? n)%nat && (n <=? 13)%nat) || (n =? 32)%nat.

Fixpoint lstrip (s : string) : string :=
  match s with
  | String c s' => if is_space c then lstrip s' else s
  | EmptyString => EmptyString
  end.

Fixpoint rev_onto (s acc : string) : string :=
  match s with
  | EmptyString => acc
  | String c s' => rev_onto s' (String c acc)
  end.

Definition strip (s : string) : string :=
  rev_onto (lstrip (rev_onto (lstrip s) EmptyString)) EmptyString.

(** Decimal digits, single underscores allowed between two digits.
    [after_digit] says whether the previous character was a digit. *)
Fixpoint digits (acc : Z) (after_digit : bool) (s : string) : option Z :=
  match s with
  | EmptyString => if after_digit then Some acc else None
  | String c s' =>
      if is_digit c then digits (10 * acc + digit_value c) true s'
      else if Ascii.eqb c "_" then
             if after_digit then digits acc false s' else None
           else None
  end.

(** [int(s)] in base ten: blanks stripped, an optional sign, then digits.
    This is [int] on ASCII text of ordinary length: characters are read as
    8-bit codes, those above 127 as neither blank nor digit, where Python
    also accepts the decimal digits and blanks outside ASCII; and Python
    raises [ValueError] beyond 4300 digits, which is left out. *)
Definition int (s : string) : result Z :=
  let body (t : string) (sign : Z) :=
    match digits 0 false t with
    | Some n => Ok (sign * n)
    | None => Raise ValueError
    end in
  match strip s with
  | String "-" t => body t (-1)
  | String "+" t => body t 1
  | t => body t 1
  end.

(** *** Sets of strings

    A set is represented by its elements in insertion order, without
    repetition.  The order in which Python iterates over a set is not
    fixed by the language; it is left to [set_iter] (see [SetOrder]). *)

Definition mem (x : string) (xs : list string) : bool :=
  existsb (String.eqb x) xs.

(** [set(xs)]: add the elements one by one. *)
Fixpoint set_add_all (seen xs : list string) : list string :=
  match xs with
  | [] => seen
  | x :: xs' => set_add_all (if mem x seen then seen else seen ++ [x]) xs'
  end.

Definition set_of (xs : list string) : list string := set_add_all [] xs.

(** [s.intersection(xs)] for an iterable [xs] that is not a set: a new
    set that receives, in the order of [xs], the elements of [xs] found
    in [s]. *)
Definition intersection (s xs : list string) : list string :=
  set_of (filter (fun x => mem x s) xs).

(** The iteration order of a set, as a function of its insertion
    history; all that is known of it is that it enumerates the set. *)
Class SetOrder : Type := {
  set_iter : list string -> list string;
  set_iter_perm : forall s, Permutation (set_iter s) s
}.

(** *** [sorted(xs, key=f)] *)

(** Stable insertion of [x] with key [k] into a list sorted by key. *)
Fixpoint insert_by_key {A : Type} (k : Z) (x : A) (l : list (Z * A)) : list (Z * A) :=
  match l with
  | [] => [(k, x)]
  | (k', y) :: l' =>
      if k <=? k' then (k, x) :: (k', y) :: l' else (k', y) :: insert_by_key k x l'
  end.

Fixpoint sort_keyed {A : Type} (l : list (Z * A)) : list (Z * A) :=
  match l with
  | [] => []
  | (k, x) :: l' => insert_by_key k x (sort_keyed l')
  end.

(** The keys are computed first, left to right (an exception of [key]
    propagates); the elements are then sorted by key.  Python's sort is
    stable, and so is this one, so the two return the same list. *)
Definition sorted {A : Type} (key : A -> result Z) (xs : list A) : result (list A) :=
  bind (map_each (fun x => fmap (fun k => (k, x)) (key x)) xs)
       (fun keyed => Ok (map snd (sort_keyed keyed))).

(** *** Dictionaries with string keys

    A dictionary is its items in insertion order; keys do not repeat. *)

Definition dict (V : Type) : Type := list (string * V).

Definition keys {V : Type} (d : dict V) : list string := map fst d.

Fixpoint get {V : Type} (d : dict V) (k : string) : option V :=
  match d with
  | [] => None
  | (k', v) :: d' => if String.eqb k k' then Some v else get d' k
  end.

(** [d[k]] *)
Definition getitem {V : Type} (d : dict V) (k : string) : result V :=
  match get d k with
  | Some v => Ok v
  | None => Raise KeyError
  end.

(** [d.get(k, default)] *)
Definition get_default {V : Type} (d : dict V) (k : string) (default : V) : V :=
  match get d k with
  | Some v => v
  | None => default
  end.

(** [d[k] = v]: the value of an existing key is replaced in place, a new
    key goes last. *)
Fixpoint setitem {V : Type} (d : dict V) (k : string) (v : V) : dict V :=
  match d with
  | [] => [(k, v)]
  | (k', v') :: d' =>
      if String.eqb k k' then (k, v) :: d' else (k', v') :: setitem d' k v
  end.

(** *** [datetime]

    A [datetime] of the day [strptime] assigns (1900-01-01) or of a later
    day, as the number of minutes since that day's midnight. *)

Definition datetime : Type := Z.

Definition two_digits (n : Z) : string :=
  String (ascii_of_nat (48 + Z.to_nat (n / 10)))
    (String (ascii_of_nat (48 + Z.to_nat (n mod 10))) EmptyString).

(** [dt.strftime("%H:%M")] *)
Definition strftime_HM (dt : datetime) : string :=
  two_digits ((dt / 60) mod 24) ++ ":" ++ two_digits (dt mod 60).

(** [datetime.strptime(s, "%H:%M")].  The directive [%H] reads two digits
    that form an hour from 00 to 23, or else one digit; [%M] reads two
    digits that form a minute from 00 to 59, or else one digit; the colon
    stands between them and nothing may remain after the minute. *)
Definition strptime_HM (s : string) : result datetime :=
  let minute (h : Z) (t : string) : result datetime :=
    match t with
    | String m1 (String m2 rest) =>
        if is_digit m1 && (digit_value m1 <=? 5) && is_digit m2 then
          match rest with
          | EmptyString => Ok (h * 60 + (10 * digit_value m1 + digit_value m2))
          | _ => Raise ValueError
          end
        else Raise ValueError
    | String m1 EmptyString =>
        if is_digit m1 then Ok (h * 60 + digit_value m1) else Raise ValueError
    | EmptyString => Raise ValueError
    end in
  match s with
  | String h1 (String ":" t) =>
      if is_digit h1 then minute (digit_value h1) t else Raise ValueError
  | String h1 (String h2 (String ":" t)) =>
      if is_digit h1 && is_digit h2 && (10 * digit_value h1 + digit_value h2 <=? 23)
      then minute (10 * digit_value h1 + digit_value h2) t
      else Raise ValueError
  | _ => Raise ValueError
  end.

End Py.

Import Py.

Declare Scope py_scope.
Delimit Scope py_scope with py.
Notation "x <- m ;; k" := (bind m (fun x => k))
  (at level 61, m at next level, right associativity) : py_scope.
Notation "' pat <- m ;; k" := (bind m (fun x => match x with pat => k end))
  (at level 61, pat pattern, m at next level, right associativity) : py_scope.
Local Open Scope py_scope.

(** ** The program *)

(** *** 1) Configuration *)

Definition TAGE : list string :=
  ["Montag"; "Dienstag"; "Mittwoch"; "Donnerstag"; "Freitag"].

(** The label [f"{slot_start.strftime(fmt)}-{slot_end.strftime(fmt)}"]. *)
Definition range_label (slot_start slot_end : datetime) : string :=
  strftime_HM slot_start ++ "-" ++ strftime_HM slot_end.

(** The [while current < end_dt] loop of [generate_halfhour_slots]; [slots]
    is the list built so far. *)
Equations? generate_loop (end_dt current : datetime) (slots : list string)
  : list string by wf (Z.to_nat (end_dt - current)) lt :=
  generate_loop end_dt current slots with Z_lt_dec current end_dt := {
    | left _ =>
        let slot_start := current in
        let slot_end := current + 30 in
        if slot_end >? end_dt then slots
        else generate_loop end_dt slot_end (slots ++ [range_label slot_start slot_end]);
    | right _ => slots }.
Proof. lia. Qed.

Definition generate_halfhour_slots (start_str end_str : string) : result (list string) :=
  start_dt <- strptime_HM start_str ;;
  end_dt <- strptime_HM end_str ;;
  Ok (generate_loop end_dt start_dt []).

Definition HALF_HOUR_SLOTS : list string :=
  Eval vm_compute in
    match generate_halfhour_slots "12:00" "21:30" with
    | Ok slots => slots
    | Raise _ => []
    end.

(** *** 3) Common slots *)

Definition slot_to_minutes (slot_label : string) : result Z :=
  start_str <- index (split "-" slot_label) 0 ;;
  match split ":" start_str with
  | [hh; mm] =>
      h <- int hh ;;
      m <- int mm ;;
      Ok (h * 60 + m)
  | _ => Raise ValueError
  end.

(** The [while i < len(halfhour_list) - 1] loop of [find_hour_blocks].  The
    index is a natural number, so [len - 1] is cut off at zero for the
    empty list, where Python has -1; the test fails either way. *)
Equations? hour_blocks_loop (halfhour_list : list string) (i : nat) (blocks : list string)
  : result (list string) by wf (List.length halfhour_list - i)%nat lt :=
  hour_blocks_loop halfhour_list i blocks
    with lt_dec i (List.length halfhour_list - 1) := {
    | left _ =>
        slot_a <- index halfhour_list i ;;
        slot_b <- index halfhour_list (i + 1) ;;
        minutes_b <- slot_to_minutes slot_b ;;
        minutes_a <- slot_to_minutes slot_a ;;
        if minutes_b =? minutes_a + 30 then
          start_str <- index (split "-" slot_a) 0 ;;
          end_str <- index (split "-" slot_b) 1 ;;
          let hour_label := start_str ++ "-" ++ end_str in
          hour_blocks_loop halfhour_list (i + 2) (blocks ++ [hour_label])
        else
          hour_blocks_loop halfhour_list (i + 1) blocks;
    | right _ => Ok blocks }.
Proof. all: lia. Qed.

Definition find_hour_blocks (halfhour_list : list string) : result (list string) :=
  hour_blocks_loop halfhour_list 0 [].

Section CommonSlots.

Context {order : SetOrder}.

(** One round of the [for tag in TAGE] loop up to [halfhour_list]: the
    first person's slots as a set, intersected with the slots of each
    further person, then sorted by start time. *)
Definition common_halfhours (selected_data : dict (dict (list string)))
    (persons : list string) (tag : string) : result (list string) :=
  first <- index persons 0 ;;
  first_days <- getitem selected_data first ;;
  first_slots <- getitem first_days tag ;;
  set_slots <-
    for_each (tl persons)
      (fun set_slots p =>
         days <- getitem selected_data p ;;
         slots <- getitem days tag ;;
         Ok (intersection set_slots slots))
      (set_of first_slots) ;;
  sorted slot_to_minutes (set_iter set_slots).

Definition find_common_slots (selected_data : dict (dict (list string)))
    (meeting_length : Z) : result (dict (list string)) :=
  let persons := keys selected_data in
  if (List.length persons <? 2)%nat then Ok []
  else
    for_each TAGE
      (fun common_per_day tag =>
         halfhour_list <- common_halfhours selected_data persons tag ;;
         if meeting_length =? 30 then
           Ok (setitem common_per_day tag halfhour_list)
         else
           hour_blocks <- find_hour_blocks halfhour_list ;;
           Ok (setitem common_per_day tag hour_blocks))
      [].

End CommonSlots.

(** A set order to compute with: iteration in insertion order. *)
#[local] Instance insertion_order : SetOrder :=
  {| set_iter := fun s => s; set_iter_perm := fun s => Permutation_refl s |}.

(** *** 2) Database functions

    The database is the table [verfuegbarkeit], as its rows in the order
    of their ids, and the counter from which AUTOINCREMENT takes the next
    id.  The SELECT of [load_data] has no ORDER BY: the rows are read in
    the order of the table. *)

Record row : Set := {
  row_id : Z; row_person : string; row_tag : string; row_slot : string
}.

Record database : Set := {
  last_id : Z;
  verfuegbarkeit : list row
}.

(** [init_db]: the table is created, empty, when the file has none yet
    ([None]); an existing table is left as it is. *)
Definition init_db (file : option database) : database :=
  match file with
  | Some conn => conn
  | None => {| last_id := 0; verfuegbarkeit := [] |}
  end.

(** [DELETE FROM verfuegbarkeit WHERE person = ?] *)
Definition sql_delete (conn : database) (person : string) : database :=
  {| last_id := last_id conn;
     verfuegbarkeit :=
       filter (fun r => negb (String.eqb (row_person r) person)) (verfuegbarkeit conn) |}.

(** [INSERT INTO verfuegbarkeit (person, tag, slot) VALUES (?, ?, ?)] *)
Definition sql_insert (conn : database) (person tag slot : string) : database :=
  {| last_id := last_id conn + 1;
     verfuegbarkeit :=
       verfuegbarkeit conn ++
       [ {| row_id := last_id conn + 1; row_person := person;
            row_tag := tag; row_slot := slot |} ] |}.

(** [SELECT person, tag, slot FROM verfuegbarkeit] *)
Definition sql_select (conn : database) : list (string * string * string) :=
  map (fun r => (row_person r, row_tag r, row_slot r)) (verfuegbarkeit conn).

Definition save_availability (conn : database) (person : string)
    (data_dict : dict (list string)) : database :=
  let conn := sql_delete conn person in
  fold_left
    (fun conn item =>
       let tag := fst item in
       let slots := snd item in
       fold_left (fun conn slot => sql_insert conn person tag slot) slots conn)
    data_dict conn.

(** The first loop of [load_data], one row: the person gets the five
    weekdays, each empty, when first met; the slot goes last on the list of
    its weekday. *)
Definition load_row (data : dict (dict (list string))) (r : string * string * string)
  : result (dict (dict (list string))) :=
  let person := fst (fst r) in
  let tag := snd (fst r) in
  let slot := snd r in
  let data :=
    if mem person (keys data) then data
    else setitem data person (map (fun t => (t, [])) TAGE) in
  days <- getitem data person ;;
  slots <- getitem days tag ;;
  Ok (setitem data person (setitem days tag (slots ++ [slot])%list)).

(** The second loop of [load_data], one person and one weekday:
    [data[p][t].sort(key=slot_to_minutes)]. *)
Definition sort_day (p : string) (data : dict (dict (list string))) (t : string)
  : result (dict (dict (list string))) :=
  days <- getitem data p ;;
  slots <- getitem days t ;;
  sorted_slots <- sorted slot_to_minutes slots ;;
  Ok (setitem data p (setitem days t sorted_slots)).

Definition load_data (conn : database) : result (dict (dict (list string))) :=
  let rows := sql_select conn in
  data <- for_each rows load_row [] ;;
  for_each (keys data) (fun data p => for_each TAGE (sort_day p) data) data.

Definition delete_person (conn : database) (person : string) : database :=
  sql_delete conn person.

(** ** Vocabulary of the statements *)

(** A number that two decimal digits can show. *)
Definition two_digit (n : Z) : Prop := 0 <= n < 100.

(** ["HH:MM"] from an hour and a minute below 100. *)
Definition hm (h m : Z) : string := two_digits h ++ ":" ++ two_digits m.

(** The grid label of the half hour that starts [s] minutes after midnight. *)
Definition halfhour_label (s : Z) : string := range_label s (s + 30).

(** A start of a half-hour slot that ends on the same day. *)
Definition halfhour_start (s : Z) : Prop := 0 <= s /\ s + 30 < 1440.

Fixpoint occurs (c : ascii) (s : string) : bool :=
  match s with
  | EmptyString => false
  | String c' s' => Ascii.eqb c' c || occurs c s'
  end.

(** What the conversions need of a two-digit field. *)
Definition two_digits_ok (n : Z) : bool :=
  negb (occurs "-" (two_digits n)) && negb (occurs ":" (two_digits n))
  && match int (two_digits n) with
     | Ok v => v =? n
     | Raise _ => false
     end.

(** [l1] is [l2] with some elements left out. *)
Inductive subsequence {A : Type} : list A -> list A -> Prop :=
| subsequence_nil : subsequence [] []
| subsequence_skip x l1 l2 : subsequence l1 l2 -> subsequence l1 (x :: l2)
| subsequence_keep x l1 l2 : subsequence l1 l2 -> subsequence (x :: l1) (x :: l2).

(** [a] starts no later than [b]. *)
Definition starts_le (a b : string) : Prop :=
  exists ka kb, slot_to_minutes a = Ok ka /\ slot_to_minutes b = Ok kb /\ ka <= kb.

(** Every person of the snapshot has an entry for each weekday. *)
Definition all_weekdays (selected_data : dict (dict (list string))) : Prop :=
  forall p days tag, In (p, days) selected_data -> In tag TAGE -> get days tag <> None.

(** All the labels of a snapshot, person by person and day by day. *)
Definition all_labels (selected_data : dict (dict (list string))) : list string :=
  flat_map (fun entry => flat_map snd (snd entry)) selected_data.

(** The label has a start time that can be read. *)
Definition readable (x : string) : Prop := exists k, slot_to_minutes x = Ok k.

(** No two labels of [l] share a start time. *)
Definition distinct_starts_in (l : list string) : Prop :=
  forall x y k, In x l -> In y l ->
                slot_to_minutes x = Ok k -> slot_to_minutes y = Ok k -> x = y.

(** No two labels of the snapshot share a start time. *)
Definition distinct_starts (selected_data : dict (dict (list string))) : Prop :=
  distinct_starts_in (all_labels selected_data).

Definition same_start (a b : string) : bool :=
  match slot_to_minutes a, slot_to_minutes b with
  | Ok k, Ok k' => k =? k'
  | _, _ => false
  end.

(** [distinct_starts_in], decided. *)
Definition distinct_startsb (l : list string) : bool :=
  forallb (fun a => forallb (fun b => String.eqb a b || negb (same_start a b)) l) l.

(** The iteration order of a set depends on its elements only. *)
Definition order_by_contents (order : SetOrder) : Prop :=
  forall s s', NoDup s -> NoDup s' -> Permutation s s' -> set_iter s = set_iter s'.

(** A label ["HH:MM-HH:MM"] by its four fields. *)
Record hhmm_label : Set := {
  start_h : Z; start_m : Z; end_h : Z; end_m : Z
}.

Definition label_text (l : hhmm_label) : string :=
  hm (start_h l) (start_m l) ++ "-" ++ hm (end_h l) (end_m l).

Definition label_fields_ok (l : hhmm_label) : Prop :=
  two_digit (start_h l) /\ two_digit (start_m l) /\
  two_digit (end_h l) /\ two_digit (end_m l).

Definition start_minutes (l : hhmm_label) : Z := start_h l * 60 + start_m l.

(** The blocks of a list of labels when only start times decide a merge:
    the block of a merged pair runs from the start of the first label to
    the end of the second; the end of the first label plays no part. *)
Fixpoint merged_by_starts (ls : list hhmm_label) : list string :=
  match ls with
  | a :: tl =>
      match tl with
      | b :: rest =>
          if start_minutes b =? start_minutes a + 30
          then (hm (start_h a) (start_m a) ++ "-" ++ hm (end_h b) (end_m b))
                 :: merged_by_starts rest
          else merged_by_starts tl
      | [] => []
      end
  | [] => []
  end.

(** The starts of the pairs the scan merges, for half-hour slots given by
    their starts. *)
Fixpoint paired_starts (starts : list Z) : list Z :=
  match starts with
  | a :: tl =>
      match tl with
      | b :: rest => if b =? a + 30 then a :: paired_starts rest else paired_starts tl
      | [] => []
      end
  | [] => []
  end.

(** The two half-hour slots an hour block starting at [s] is made of. *)
Definition consumed (ps : list Z) : list Z := flat_map (fun s => [s; s + 30]) ps.

(** The start of a label in minutes, 0 when it cannot be read. *)
Definition start_or_zero (x : string) : Z :=
  match slot_to_minutes x with
  | Ok k => k
  | Raise _ => 0
  end.

(** One weekday of [find_common_slots]: the common half hours and, unless
    the meeting length is 30, their consolidation. *)
Definition day_blocks {order : SetOrder} (selected_data : dict (dict (list string)))
    (meeting_length : Z) (tag : string) : result (list string) :=
  halfhour_list <- common_halfhours selected_data (keys selected_data) tag ;;
  if meeting_length =? 30 then Ok halfhour_list else find_hour_blocks halfhour_list.

(** The set of common slots of a weekday when every person has an entry:
    the first person's slots as a set, intersected in turn with the slots of
    each further person. *)
Definition seeded_intersection (tag : string) (selected_data : dict (dict (list string)))
  : list string :=
  match selected_data with
  | [] => []
  | first :: others =>
      fold_left (fun set_slots entry =>
                   intersection set_slots (get_default (snd entry) tag []))
                others (set_of (get_default (snd first) tag []))
  end.

(** Order of keyed elements by key. *)
Definition key_le {A : Type} (a b : Z * A) : Prop := fst a <= fst b.

(** The entry of a person has slots for [tag]. *)
Definition has_day (tag : string) (entry : string * dict (list string)) : bool :=
  match get (snd entry) tag with
  | Some _ => true
  | None => false
  end.


(** A person's entry with the same slots on every weekday. *)
Definition every_day (slots : list string) : dict (list string) :=
  map (fun tag => (tag, slots)) TAGE.

(** Two persons free from 12:00 to 13:00 on every weekday. *)
Definition two_free_hours : dict (dict (list string)) :=
  [ ("Dodi", every_day ["12:00-12:30"; "12:30-13:00"]);
    ("Noah", every_day ["12:30-13:00"; "12:00-12:30"]) ].

(** Two persons who share a slot before the grid begins. *)
Definition early_birds : dict (dict (list string)) :=
  [ ("Dodi", every_day ["09:00-09:30"; "12:00-12:30"]);
    ("Noah", every_day ["09:00-09:30"]) ].

(** Two persons who share an entry that is no time label. *)
Definition stale_entries : dict (dict (list string)) :=
  [ ("Dodi", every_day ["mittags"]);
    ("Noah", every_day ["mittags"]) ].

(** Three persons; the third is free half an hour later than the others. *)
Definition three_persons : dict (dict (list string)) :=
  [ ("Dodi", every_day ["12:00-12:30"; "12:30-13:00"; "13:00-13:30"]);
    ("Noah", every_day ["12:00-12:30"; "12:30-13:00"; "13:00-13:30"]);
    ("Juri", every_day ["12:30-13:00"; "13:00-13:30"]) ].

(** The first two of [three_persons]. *)
Definition first_two : dict (dict (list string)) := firstn 2 three_persons.

(** The first of [three_persons]. *)
Definition first_one : dict (dict (list string)) := firstn 1 three_persons.

(** [three_persons] in another order. *)
Definition three_persons_rotated : dict (dict (list string)) :=
  (skipn 2 three_persons ++ firstn 2 three_persons)%list.

(** The half hour that starts at [x] is over when the one at [y] starts. *)
Definition no_overlap (x y : Z) : Prop := x + 30 <= y.

(** Every person of the snapshot has the label [x] on the weekday [tag]. *)
Definition shared_on (selected_data : dict (dict (list string))) (tag x : string) : Prop :=
  forall p days, In (p, days) selected_data ->
                 exists slots, get days tag = Some slots /\ In x slots.

(** The label is a half-hour label of some grid. *)
Definition grid_label (x : string) : Prop :=
  exists s, halfhour_start s /\ x = halfhour_label s.

(** The slots of the rows of person [p] and weekday [t], in the order of
    the rows. *)
Definition slots_in (rows : list (string * string * string)) (p t : string)
  : list string :=
  map snd (filter (fun r => String.eqb (fst (fst r)) p && String.eqb (snd (fst r)) t) rows).

(** The persons of the rows, each once, in the order of their first row. *)
Definition persons_in (rows : list (string * string * string)) : list string :=
  set_of (map (fun r => fst (fst r)) rows).

(** The five weekdays of person [p], each with its slots. *)
Definition days_of (rows : list (string * string * string)) (p : string)
  : dict (list string) :=
  map (fun t => (t, slots_in rows p t)) TAGE.

(** The rows by person and weekday, as the first loop of [load_data]
    leaves them. *)
Definition grouped (rows : list (string * string * string)) : dict (dict (list string)) :=
  map (fun p => (p, days_of rows p)) (persons_in rows).

(** The list in ascending order of start, labels with the same start in
    the order they had. *)
Definition sort_by_start (l : list string) : list string :=
  map snd (sort_keyed (map (fun x => (start_or_zero x, x)) l)).

(** A snapshot with every list sorted. *)
Definition sorted_snapshot (data : dict (dict (list string))) : dict (dict (list string)) :=
  map (fun e => (fst e, map (fun d => (fst d, sort_by_start (snd d))) (snd e))) data.

(** The rows [save_availability] inserts. *)
Definition new_rows (person : string) (data_dict : dict (list string))
  : list (string * string * string) :=
  flat_map (fun item => map (fun slot => (person, fst item, slot)) (snd item)) data_dict.

(** The snapshot without the person [p]. *)
Definition without (p : string) (data : dict (dict (list string)))
  : dict (dict (list string)) :=
  filter (fun e => negb (String.eqb (fst e) p)) data.

(** The sort of the second loop of [load_data] on the days of one person. *)
Definition sort_days (days : dict (list string)) : result (dict (list string)) :=
  for_each TAGE
    (fun days t =>
       slots <- getitem days t ;;
       sorted_slots <- sorted slot_to_minutes slots ;;
       Ok (setitem days t sorted_slots))
    days.

(** The days of a person as [load_data] returns them for the availability
    [data_dict] that was saved. *)
Definition saved_days (data_dict : dict (list string)) : dict (list string) :=
  map (fun t => (t, sort_by_start (get_default data_dict t []))) TAGE.

(** The availability has no slot at all. *)
Definition no_slots (data_dict : dict (list string)) : bool :=
  forallb (fun item => match snd item with [] => true | _ :: _ => false end) data_dict.

(** A table with the availability of two persons. *)
Definition two_saved : database :=
  save_availability
    (save_availability (init_db None) "Dodi"
       [("Montag", ["12:30-13:00"; "12:00-12:30"]); ("Freitag", ["13:00-13:30"])])
    "Noah" [("Montag", ["12:00-12:30"; "12:30-13:00"])].

(** A set order that iterates from the element inserted last. *)
Definition reverse_order : SetOrder :=
  {| set_iter := fun s => rev s;
     set_iter_perm := fun s => Permutation_sym (Permutation_rev s) |}.

(** The label is written ["HH:MM-..."], with the hour [h] and the minute
    [m] as its first two fields. *)
Definition starts_at (x : string) (h m : Z) : Prop :=
  two_digit h /\ two_digit m /\ exists rest, x = hm h m ++ "-" ++ rest.

(** By the hour and minute written in them, [a] starts no later than [b]. *)
Definition fields_le (a b : string) : Prop :=
  forall ha ma hb mb,
    starts_at a ha ma -> starts_at b hb mb -> ha * 60 + ma <= hb * 60 + mb.

(** One person alone. *)
Definition one_person : dict (dict (list string)) :=
  [ ("Dodi", every_day ["12:00-12:30"; "12:30-13:00"]) ].

(** ** The result monad *)

Lemma bind_ext {A B : Type} (m : result A) (k k' : A -> result B) :
  (forall a, k a = k' a) -> bind m k = bind m k'.
Proof. intros H. destruct m; simpl; auto. Qed.

Lemma fmap_fmap {A B C : Type} (f : A -> B) (g : B -> C) (m : result A) :
  fmap g (fmap f m) = fmap (fun a => g (f a)) m.
Proof. destruct m; reflexivity. Qed.

Lemma fmap_bind {A B C : Type} (f : B -> C) (m : result A) (k : A -> result B) :
  fmap f (bind m k) = bind m (fun a => fmap f (k a)).
Proof. destruct m; reflexivity. Qed.

(** ** The loop of [find_hour_blocks] *)

Lemma hour_blocks_loop_step l i blocks :
  (i < List.length l - 1)%nat ->
  hour_blocks_loop l i blocks =
    (slot_a <- index l i ;;
     slot_b <- index l (i + 1) ;;
     minutes_b <- slot_to_minutes slot_b ;;
     minutes_a <- slot_to_minutes slot_a ;;
     if minutes_b =? minutes_a + 30 then
       start_str <- index (split "-" slot_a) 0 ;;
       end_str <- index (split "-" slot_b) 1 ;;
       hour_blocks_loop l (i + 2) (blocks ++ [start_str ++ "-" ++ end_str])
     else hour_blocks_loop l (i + 1) blocks).
Proof.
  intros H. rewrite hour_blocks_loop_equation_1.
  destruct (lt_dec i (List.length l - 1)) as [Hlt | Hge]; [reflexivity | contradiction].
Qed.

Lemma hour_blocks_loop_exit l i blocks :
  ~ (i < List.length l - 1)%nat -> hour_blocks_loop l i blocks = Ok blocks.
Proof.
  intros H. rewrite hour_blocks_loop_equation_1.
  destruct (lt_dec i (List.length l - 1)) as [Hlt | Hge]; [contradiction | reflexivity].
Qed.

(** The loop at index [i + 1] of [x :: l] is the loop at index [i] of [l]. *)
Lemma hour_blocks_loop_shift x l :
  forall n i blocks, (List.length l - i <= n)%nat ->
    hour_blocks_loop (x :: l) (S i) blocks = hour_blocks_loop l i blocks.
Proof.
  induction n as [| n IH]; intros i blocks Hn.
  - rewrite !hour_blocks_loop_exit; [reflexivity | | ]; simpl; lia.
  - destruct (lt_dec i (List.length l - 1)) as [Hlt | Hge].
    + rewrite (hour_blocks_loop_step l i) by exact Hlt.
      rewrite (hour_blocks_loop_step (x :: l) (S i)) by (simpl; lia).
      unfold index at 1 3. simpl nth_error.
      apply bind_ext; intros slot_a.
      unfold index at 1 3. simpl nth_error.
      apply bind_ext; intros slot_b.
      apply bind_ext; intros minutes_b.
      apply bind_ext; intros minutes_a.
      destruct (minutes_b =? minutes_a + 30).
      * apply bind_ext; intros start_str.
        apply bind_ext; intros end_str.
        apply (IH (i + 2)%nat). lia.
      * apply (IH (i + 1)%nat). lia.
    + rewrite !hour_blocks_loop_exit; [reflexivity | | ]; simpl; lia.
Qed.

(** The blocks already emitted stay in front of those still to come. *)
Lemma hour_blocks_loop_acc l :
  forall n i blocks, (List.length l - i <= n)%nat ->
    hour_blocks_loop l i blocks = fmap (app blocks) (hour_blocks_loop l i []).
Proof.
  induction n as [| n IH]; intros i blocks Hn.
  - rewrite !hour_blocks_loop_exit by lia. simpl. now rewrite app_nil_r.
  - destruct (lt_dec i (List.length l - 1)) as [Hlt | Hge].
    + rewrite !(hour_blocks_loop_step l i) by exact Hlt.
      rewrite fmap_bind. apply bind_ext; intros slot_a.
      rewrite fmap_bind. apply bind_ext; intros slot_b.
      rewrite fmap_bind. apply bind_ext; intros minutes_b.
      rewrite fmap_bind. apply bind_ext; intros minutes_a.
      destruct (minutes_b =? minutes_a + 30).
      * rewrite fmap_bind. apply bind_ext; intros start_str.
        rewrite fmap_bind. apply bind_ext; intros end_str.
        rewrite (IH (i + 2)%nat (blocks ++ _)%list) by lia.
        rewrite (IH (i + 2)%nat ([] ++ _)%list) by lia.
        rewrite fmap_fmap. destruct (hour_blocks_loop l (i + 2) []); simpl; [|reflexivity].
        now rewrite <- app_assoc.
      * apply (IH (i + 1)%nat). lia.
    + rewrite !hour_blocks_loop_exit by lia. simpl. now rewrite app_nil_r.
Qed.

Lemma find_hour_blocks_nil : find_hour_blocks [] = Ok [].
Proof. reflexivity. Qed.

Lemma find_hour_blocks_one x : find_hour_blocks [x] = Ok [].
Proof. unfold find_hour_blocks. apply hour_blocks_loop_exit. simpl. lia. Qed.

(** One round of the scan, on the list itself. *)
Lemma find_hour_blocks_two slot_a slot_b rest :
  find_hour_blocks (slot_a :: slot_b :: rest) =
    (minutes_b <- slot_to_minutes slot_b ;;
     minutes_a <- slot_to_minutes slot_a ;;
     if minutes_b =? minutes_a + 30 then
       start_str <- index (split "-" slot_a) 0 ;;
       end_str <- index (split "-" slot_b) 1 ;;
       fmap (cons (start_str ++ "-" ++ end_str)) (find_hour_blocks rest)
     else find_hour_blocks (slot_b :: rest)).
Proof.
  unfold find_hour_blocks.
  rewrite hour_blocks_loop_step by (simpl; lia).
  unfold index at 1 2. simpl nth_error. cbn [bind].
  apply bind_ext; intros minutes_b.
  apply bind_ext; intros minutes_a.
  destruct (minutes_b =? minutes_a + 30).
  - apply bind_ext; intros start_str.
    apply bind_ext; intros end_str.
    change (0 + 2)%nat with (S (S 0)).
    rewrite (hour_blocks_loop_shift _ _ (List.length rest)) by (simpl; lia).
    rewrite (hour_blocks_loop_shift _ _ (List.length rest)) by lia.
    rewrite (hour_blocks_loop_acc _ (List.length rest)) by lia.
    reflexivity.
  - change (0 + 1)%nat with (S 0).
    apply (hour_blocks_loop_shift _ _ (S (List.length rest))). simpl. lia.
Qed.

(** ** Strings: splitting and two-digit fields *)

Lemma occurs_app c a b : occurs c (a ++ b) = occurs c a || occurs c b.
Proof.
  induction a as [| c' a IH]; simpl; [reflexivity|].
  rewrite IH. now rewrite orb_assoc.
Qed.

Lemma split_pieces_free c s : occurs c s = false -> split_pieces c s = (s, []).
Proof.
  induction s as [| c' s IH]; simpl; [reflexivity|].
  intros H. apply orb_false_elim in H as [Hc Hs].
  rewrite (IH Hs), Hc. reflexivity.
Qed.

Lemma split_free c s : occurs c s = false -> split c s = [s].
Proof. intros H. unfold split. now rewrite split_pieces_free. Qed.

Lemma split_app c a b :
  occurs c a = false -> split c (a ++ String c b) = a :: split c b.
Proof.
  unfold split. induction a as [| c' a IH]; simpl.
  - intros _. destruct (split_pieces c b) as [p ps]. now rewrite Ascii.eqb_refl.
  - intros H. apply orb_false_elim in H as [Hc Ha].
    specialize (IH Ha). destruct (split_pieces c (a ++ String c b)) as [p ps].
    rewrite Hc. destruct (split_pieces c b) as [q qs]. now inversion IH.
Qed.

Lemma two_digits_check n : two_digit n -> two_digits_ok n = true.
Proof.
  intros [Hlo Hhi].
  assert (Hall : forallb (fun k => two_digits_ok (Z.of_nat k)) (seq 0 100) = true)
    by (vm_compute; reflexivity).
  rewrite forallb_forall in Hall.
  specialize (Hall (Z.to_nat n)). rewrite Z2Nat.id in Hall by exact Hlo.
  apply Hall. apply in_seq. lia.
Qed.

Lemma two_digits_no_dash n : two_digit n -> occurs "-" (two_digits n) = false.
Proof.
  intros H. apply two_digits_check in H. unfold two_digits_ok in H.
  apply andb_prop in H as [H _]. apply andb_prop in H as [H _].
  now apply negb_true_iff in H.
Qed.

Lemma two_digits_no_colon n : two_digit n -> occurs ":" (two_digits n) = false.
Proof.
  intros H. apply two_digits_check in H. unfold two_digits_ok in H.
  apply andb_prop in H as [H _]. apply andb_prop in H as [_ H].
  now apply negb_true_iff in H.
Qed.

Lemma int_two_digits n : two_digit n -> int (two_digits n) = Ok n.
Proof.
  intros H. apply two_digits_check in H. unfold two_digits_ok in H.
  apply andb_prop in H as [_ H].
  destruct (int (two_digits n)) as [v | e]; [|discriminate].
  apply Z.eqb_eq in H. now subst.
Qed.

Lemma hm_no_dash h m : two_digit h -> two_digit m -> occurs "-" (hm h m) = false.
Proof.
  intros Hh Hm. unfold hm. rewrite !occurs_app.
  rewrite (two_digits_no_dash h Hh), (two_digits_no_dash m Hm). reflexivity.
Qed.

Lemma split_colon_hm h m :
  two_digit h -> two_digit m -> split ":" (hm h m) = [two_digits h; two_digits m].
Proof.
  intros Hh Hm. unfold hm.
  change (two_digits h ++ ":" ++ two_digits m)
    with (two_digits h ++ String ":" (two_digits m)).
  rewrite split_app by now apply two_digits_no_colon.
  rewrite split_free by now apply two_digits_no_colon.
  reflexivity.
Qed.

Lemma split_dash_first s e :
  occurs "-" s = false -> index (split "-" (s ++ "-" ++ e)) 0 = Ok s.
Proof.
  intros Hs. change (s ++ "-" ++ e) with (s ++ String "-" e).
  now rewrite split_app.
Qed.

Lemma split_dash_second s e :
  occurs "-" s = false -> occurs "-" e = false ->
  index (split "-" (s ++ "-" ++ e)) 1 = Ok e.
Proof.
  intros Hs He. change (s ++ "-" ++ e) with (s ++ String "-" e).
  rewrite split_app by exact Hs. now rewrite split_free.
Qed.

(** The start of a label is read whatever follows the dash. *)
Lemma slot_to_minutes_hm h m e :
  two_digit h -> two_digit m -> slot_to_minutes (hm h m ++ "-" ++ e) = Ok (h * 60 + m).
Proof.
  intros Hh Hm. unfold slot_to_minutes.
  rewrite split_dash_first by now apply hm_no_dash.
  cbn [bind]. rewrite split_colon_hm by assumption.
  rewrite !int_two_digits by assumption. reflexivity.
Qed.

Lemma strftime_HM_hm dt :
  0 <= dt < 1440 ->
  strftime_HM dt = hm (dt / 60) (dt mod 60) /\ two_digit (dt / 60) /\ two_digit (dt mod 60).
Proof.
  intros H. unfold strftime_HM, hm, two_digit.
  assert (0 <= dt / 60 < 24) by (split; [apply Z.div_pos | apply Z.div_lt_upper_bound]; lia).
  rewrite (Z.mod_small (dt / 60) 24) by assumption.
  pose proof (Z.mod_pos_bound dt 60 ltac:(lia)). repeat split; lia.
Qed.

Lemma slot_to_minutes_range_label s e :
  0 <= s < 1440 -> slot_to_minutes (range_label s e) = Ok s.
Proof.
  intros H. unfold range_label.
  destruct (strftime_HM_hm s H) as (-> & Hh & Hm).
  rewrite slot_to_minutes_hm by assumption.
  f_equal. pose proof (Z.div_mod s 60 ltac:(lia)). lia.
Qed.

(** One round of the scan on two labels ["HH:MM-..."]: only the two start
    times decide, and the block takes its end from the second label. *)
Lemma find_hour_blocks_two_labels ha ma ea hb mb eb rest :
  two_digit ha -> two_digit ma -> two_digit hb -> two_digit mb ->
  occurs "-" eb = false ->
  find_hour_blocks ((hm ha ma ++ "-" ++ ea) :: (hm hb mb ++ "-" ++ eb) :: rest) =
    if hb * 60 + mb =? (ha * 60 + ma) + 30
    then fmap (cons (hm ha ma ++ "-" ++ eb)) (find_hour_blocks rest)
    else find_hour_blocks ((hm hb mb ++ "-" ++ eb) :: rest).
Proof.
  intros Hha Hma Hhb Hmb Heb.
  rewrite find_hour_blocks_two.
  rewrite !slot_to_minutes_hm by assumption. cbn [bind].
  destruct (hb * 60 + mb =? ha * 60 + ma + 30); [|reflexivity].
  rewrite split_dash_first by now apply hm_no_dash.
  rewrite split_dash_second by (try apply hm_no_dash; assumption).
  reflexivity.
Qed.

(** ** Consolidation on grid labels *)

Lemma halfhour_label_text s :
  halfhour_start s ->
  halfhour_label s =
    label_text {| start_h := s / 60; start_m := s mod 60;
                  end_h := (s + 30) / 60; end_m := (s + 30) mod 60 |}
  /\ label_fields_ok {| start_h := s / 60; start_m := s mod 60;
                        end_h := (s + 30) / 60; end_m := (s + 30) mod 60 |}.
Proof.
  intros [Hlo Hhi]. unfold halfhour_label, range_label, label_text, label_fields_ok.
  cbn [start_h start_m end_h end_m].
  destruct (strftime_HM_hm s ltac:(lia)) as (-> & Hh & Hm).
  destruct (strftime_HM_hm (s + 30) ltac:(lia)) as (-> & Hh' & Hm').
  auto.
Qed.

Lemma div_mod_60 s : s / 60 * 60 + s mod 60 = s.
Proof. pose proof (Z.div_mod s 60 ltac:(lia)). lia. Qed.

(** One round of the scan on two grid labels. *)
Lemma find_hour_blocks_two_halfhours sa sb rest :
  halfhour_start sa -> halfhour_start sb ->
  find_hour_blocks (halfhour_label sa :: halfhour_label sb :: rest) =
    if sb =? sa + 30
    then fmap (cons (range_label sa (sb + 30))) (find_hour_blocks rest)
    else find_hour_blocks (halfhour_label sb :: rest).
Proof.
  intros Ha Hb.
  destruct (halfhour_label_text sa Ha) as (Ea & Fa1 & Fa2 & _).
  destruct (halfhour_label_text sb Hb) as (Eb & Fb1 & Fb2 & Fb3 & Fb4).
  cbn [start_h start_m end_h end_m] in *.
  rewrite Ea, Eb. unfold label_text. cbn [start_h start_m end_h end_m].
  rewrite find_hour_blocks_two_labels by (try apply hm_no_dash; assumption).
  rewrite !div_mod_60.
  destruct (sb =? sa + 30); [|reflexivity].
  unfold range_label.
  destruct Ha as [Ha1 Ha2], Hb as [Hb1 Hb2].
  destruct (strftime_HM_hm sa ltac:(lia)) as (-> & _ & _).
  destruct (strftime_HM_hm (sb + 30) ltac:(lia)) as (-> & _ & _).
  reflexivity.
Qed.

(** Induction two elements at a time, as the scan advances. *)
Lemma list_pair_ind {A : Type} (P : list A -> Prop) :
  P [] -> (forall x, P [x]) ->
  (forall a b rest, P rest -> P (b :: rest) -> P (a :: b :: rest)) ->
  forall l, P l.
Proof.
  intros Hnil Hone Hstep l.
  assert (H : P l /\ forall x, P (x :: l)).
  { induction l as [| y l [IH1 IH2]]; split; auto. }
  apply H.
Qed.

Lemma find_hour_blocks_halfhours starts :
  Forall halfhour_start starts ->
  find_hour_blocks (map halfhour_label starts) =
    Ok (map (fun s => range_label s (s + 60)) (paired_starts starts)).
Proof.
  induction starts as [| x | a b rest IH1 IH2] using list_pair_ind; intros H.
  - reflexivity.
  - apply find_hour_blocks_one.
  - inversion H as [| ? ? Ha H']; subst. inversion H' as [| ? ? Hb H'']; subst.
    cbn [map]. rewrite find_hour_blocks_two_halfhours by assumption.
    cbn [paired_starts]. destruct (b =? a + 30) eqn:E.
    + apply Z.eqb_eq in E. subst b.
      rewrite (IH1 H''). replace (a + 30 + 30) with (a + 60) by lia. reflexivity.
    + apply (IH2 H').
Qed.

Lemma paired_starts_subsequence starts : subsequence (consumed (paired_starts starts)) starts.
Proof.
  induction starts as [| x | a b rest IH1 IH2] using list_pair_ind.
  - constructor.
  - repeat constructor.
  - cbn [paired_starts]. destruct (b =? a + 30) eqn:E.
    + apply Z.eqb_eq in E. subst b. cbn. now do 2 apply subsequence_keep.
    + now apply subsequence_skip.
Qed.

Lemma subsequence_In {A : Type} (l1 l2 : list A) x :
  subsequence l1 l2 -> In x l1 -> In x l2.
Proof.
  induction 1 as [| y l1 l2 _ IH | y l1 l2 _ IH]; simpl; intuition.
Qed.

Lemma subsequence_NoDup {A : Type} (l1 l2 : list A) :
  subsequence l1 l2 -> NoDup l2 -> NoDup l1.
Proof.
  induction 1 as [| y l1 l2 Hs IH | y l1 l2 Hs IH]; intros Hnd.
  - constructor.
  - inversion Hnd; auto.
  - inversion Hnd as [| ? ? Hnotin Hnd']; subst. constructor; [|auto].
    intros Hin. apply Hnotin. eapply subsequence_In; eauto.
Qed.

Lemma sorted_lt_NoDup (l : list Z) : Sorted Z.lt l -> NoDup l.
Proof.
  intros H. apply Sorted_StronglySorted in H; [| intros x y z; lia].
  induction H as [| x l Hs IH Hall]; constructor; [|assumption].
  intros Hin. rewrite Forall_forall in Hall. specialize (Hall x Hin). lia.
Qed.

Lemma paired_starts_bounds starts :
  Forall halfhour_start starts ->
  Forall (fun s => 0 <= s /\ s + 60 < 1440) (paired_starts starts).
Proof.
  induction starts as [| x | a b rest IH1 IH2] using list_pair_ind; intros H.
  - constructor.
  - constructor.
  - inversion H as [| ? ? Ha H']; subst. inversion H' as [| ? ? Hb H'']; subst.
    cbn [paired_starts]. destruct (b =? a + 30) eqn:E; [|auto].
    apply Z.eqb_eq in E. subst b. constructor; [|auto].
    unfold halfhour_start in *. lia.
Qed.

Lemma find_hour_blocks_merged ls :
  Forall label_fields_ok ls ->
  find_hour_blocks (map label_text ls) = Ok (merged_by_starts ls).
Proof.
  induction ls as [| x | a b rest IH1 IH2] using list_pair_ind; intros H.
  - reflexivity.
  - apply find_hour_blocks_one.
  - inversion H as [| ? ? Ha H']; subst. inversion H' as [| ? ? Hb H'']; subst.
    destruct Ha as (Ha1 & Ha2 & Ha3 & Ha4), Hb as (Hb1 & Hb2 & Hb3 & Hb4).
    cbn [map]. unfold label_text at 1 2.
    rewrite find_hour_blocks_two_labels by (try apply hm_no_dash; assumption).
    cbn [merged_by_starts]. unfold start_minutes.
    destruct (_ =? _).
    + rewrite (IH1 H''). reflexivity.
    + apply (IH2 H').
Qed.

(** ** The slot grid *)

Lemma generate_loop_step e c slots :
  c + 30 <= e ->
  generate_loop e c slots = generate_loop e (c + 30) (slots ++ [range_label c (c + 30)]).
Proof.
  intros H. rewrite generate_loop_equation_1.
  destruct (Z_lt_dec c e) as [Hlt | Hge]; [|lia].
  cbn. destruct (c + 30 >? e) eqn:E; [apply Z.gtb_lt in E; lia | reflexivity].
Qed.

Lemma generate_loop_stop e c slots :
  e < c + 30 -> generate_loop e c slots = slots.
Proof.
  intros H. rewrite generate_loop_equation_1.
  destruct (Z_lt_dec c e) as [Hlt | Hge]; [|reflexivity].
  cbn. destruct (c + 30 >? e) eqn:E; [reflexivity |].
  rewrite Z.gtb_ltb in E. apply Z.ltb_ge in E. lia.
Qed.

(** The loop appends the [n] whole half hours that fit before [e]. *)
Lemma generate_loop_closed e :
  forall (n : nat) c slots,
    30 * Z.of_nat n <= e - c < 30 * Z.of_nat n + 30 ->
    generate_loop e c slots =
      (slots ++ map (fun k => halfhour_label (c + 30 * Z.of_nat k)) (seq 0 n))%list.
Proof.
  induction n as [| n IH]; intros c slots H.
  - rewrite generate_loop_stop by lia. cbn. now rewrite app_nil_r.
  - rewrite generate_loop_step by lia.
    rewrite IH by lia. rewrite <- app_assoc. f_equal.
    cbn [seq map app]. f_equal.
    + unfold halfhour_label. do 2 f_equal; lia.
    + rewrite <- seq_shift, map_map. apply map_ext. intros k.
      f_equal. lia.
Qed.

Lemma generate_halfhour_slots_closed start_str end_str s e (n : nat) :
  strptime_HM start_str = Ok s -> strptime_HM end_str = Ok e ->
  30 * Z.of_nat n <= e - s < 30 * Z.of_nat n + 30 ->
  generate_halfhour_slots start_str end_str =
    Ok (map (fun k => halfhour_label (s + 30 * Z.of_nat k)) (seq 0 n)).
Proof.
  intros Hs He Hn. unfold generate_halfhour_slots. rewrite Hs, He. cbn [bind].
  now rewrite (generate_loop_closed e n).
Qed.

(** C5: for a start time before the end time, the generator returns the
    labels of the [n] consecutive half hours [start + 30k, start + 30k + 30),
    [k < n], where [n] is the number of whole half hours that fit between
    start and end: they cover [start, start + 30n) and what remains before
    the end, shorter than a half hour, gets no label.  From "12:00" to
    "21:30" these are the 19 labels from "12:00-12:30" to "21:00-21:30". *)
Theorem generate_halfhour_slots_grid :
  (forall start_str end_str s e,
      strptime_HM start_str = Ok s -> strptime_HM end_str = Ok e -> s < e ->
      exists n : nat,
        30 * Z.of_nat n <= e - s < 30 * Z.of_nat n + 30 /\
        generate_halfhour_slots start_str end_str =
          Ok (map (fun k => range_label (s + 30 * Z.of_nat k) (s + 30 * Z.of_nat k + 30))
                  (seq 0 n)))
  /\ generate_halfhour_slots "12:00" "21:30" =
       Ok ["12:00-12:30"; "12:30-13:00"; "13:00-13:30"; "13:30-14:00"; "14:00-14:30";
           "14:30-15:00"; "15:00-15:30"; "15:30-16:00"; "16:00-16:30"; "16:30-17:00";
           "17:00-17:30"; "17:30-18:00"; "18:00-18:30"; "18:30-19:00"; "19:00-19:30";
           "19:30-20:00"; "20:00-20:30"; "20:30-21:00"; "21:00-21:30"]
  /\ List.length HALF_HOUR_SLOTS = 19%nat
  /\ hd_error HALF_HOUR_SLOTS = Some "12:00-12:30"
  /\ last HALF_HOUR_SLOTS "" = "21:00-21:30"
  /\ generate_halfhour_slots "12:00" "21:30" = Ok HALF_HOUR_SLOTS.
Proof.
  split; [| repeat split; vm_compute; reflexivity].
  intros start_str end_str s e Hs He Hlt.
  exists (Z.to_nat ((e - s) / 30)).
  assert (Hq : 0 <= (e - s) / 30) by (apply Z.div_pos; lia).
  pose proof (Z.div_mod (e - s) 30 ltac:(lia)) as Hdm.
  pose proof (Z.mod_pos_bound (e - s) 30 ltac:(lia)) as Hm.
  rewrite Z2Nat.id by exact Hq. split; [lia|].
  apply (generate_halfhour_slots_closed _ _ s e _ Hs He).
  rewrite Z2Nat.id by exact Hq. lia.
Qed.

Lemma generate_halfhour_slots_grid_witness :
  exists n : nat,
    30 * Z.of_nat n <= 810 - 720 < 30 * Z.of_nat n + 30 /\
    generate_halfhour_slots "12:00" "13:30" =
      Ok (map (fun k => range_label (720 + 30 * Z.of_nat k) (720 + 30 * Z.of_nat k + 30))
              (seq 0 n)).
Proof.
  apply (proj1 generate_halfhour_slots_grid "12:00" "13:30" 720 810);
    [reflexivity | reflexivity | lia].
Defined.

(** ** Claims on the consolidation *)

(** C2: in 60-minute mode the scan looks at the current slot and its
    successor.  When the successor starts where the current slot ends, the
    two become one block from the start of the first to the end of the
    second and the scan goes on after both; otherwise the current slot
    yields nothing and the scan goes on at the successor.  A last slot
    without successor yields nothing.  Three slots in a row from 12:00 give
    the one block "12:00-13:00". *)
Theorem find_hour_blocks_scan (sa sb : Z) (rest : list string) :
  halfhour_start sa -> halfhour_start sb ->
  (sb = sa + 30 ->
     find_hour_blocks (halfhour_label sa :: halfhour_label sb :: rest) =
       fmap (cons (range_label sa (sb + 30))) (find_hour_blocks rest))
  /\ (sb <> sa + 30 ->
        find_hour_blocks (halfhour_label sa :: halfhour_label sb :: rest) =
          find_hour_blocks (halfhour_label sb :: rest))
  /\ find_hour_blocks [halfhour_label sa] = Ok []
  /\ find_hour_blocks [] = Ok []
  /\ find_hour_blocks ["12:00-12:30"; "12:30-13:00"; "13:00-13:30"] = Ok ["12:00-13:00"].
Proof.
  intros Ha Hb.
  pose proof (find_hour_blocks_two_halfhours sa sb rest Ha Hb) as E.
  split; [| split; [| split; [| split]]].
  - intros Hadj. rewrite E. apply Z.eqb_eq in Hadj. now rewrite Hadj.
  - intros Hapart. rewrite E. apply Z.eqb_neq in Hapart. now rewrite Hapart.
  - apply find_hour_blocks_one.
  - reflexivity.
  - reflexivity.
Qed.

Lemma find_hour_blocks_scan_witness :
  find_hour_blocks [halfhour_label 720; halfhour_label 750; halfhour_label 780] =
    fmap (cons (range_label 720 (750 + 30))) (find_hour_blocks [halfhour_label 780]).
Proof.
  apply (proj1 (find_hour_blocks_scan 720 750 [halfhour_label 780]
                  ltac:(unfold halfhour_start; lia) ltac:(unfold halfhour_start; lia))).
  reflexivity.
Defined.

(** C9: for half-hour grid slots in ascending order without repetition,
    the 60-minute blocks are the hour blocks [s, s + 60) of some starts
    [ps]; the slots they are made of, [s] and [s + 30] for each [s] of
    [ps], are, in this order, slots of the input, each taken once: the
    pairs are disjoint, a slot of the input is in one pair or in none, and
    every block is 60 minutes long. *)
Theorem find_hour_blocks_partition (starts : list Z) :
  Forall halfhour_start starts -> Sorted Z.lt starts ->
  exists ps : list Z,
    find_hour_blocks (map halfhour_label starts) =
      Ok (map (fun s => range_label s (s + 60)) ps)
    /\ subsequence (consumed ps) starts
    /\ NoDup (consumed ps)
    /\ Forall (fun s => 0 <= s /\ s + 60 < 1440) ps.
Proof.
  intros Hvalid Hsorted. exists (paired_starts starts).
  pose proof (paired_starts_subsequence starts) as Hsub.
  repeat split.
  - now apply find_hour_blocks_halfhours.
  - exact Hsub.
  - eapply subsequence_NoDup; [exact Hsub | now apply sorted_lt_NoDup].
  - now apply paired_starts_bounds.
Qed.

Lemma find_hour_blocks_partition_witness :
  exists ps : list Z,
    find_hour_blocks (map halfhour_label [720; 780; 810; 840]) =
      Ok (map (fun s => range_label s (s + 60)) ps)
    /\ subsequence (consumed ps) [720; 780; 810; 840]
    /\ NoDup (consumed ps)
    /\ Forall (fun s => 0 <= s /\ s + 60 < 1440) ps.
Proof.
  apply (find_hour_blocks_partition [720; 780; 810; 840]).
  - repeat constructor; unfold halfhour_start; lia.
  - repeat constructor; lia.
Defined.

(** C10: on labels "HH:MM-HH:MM" the 60-minute consolidation returns the
    blocks that the start times alone determine: two consecutive labels
    are merged exactly when the start of the second, in minutes, is the
    start of the first plus 30, and the block is the start of the first
    joined to the end of the second.  The end of the first label is not
    read: "12:00-13:00" and "12:30-13:00" are merged although 12:30 is
    not 13:00. *)
Theorem find_hour_blocks_reads_starts (ls : list hhmm_label) :
  Forall label_fields_ok ls ->
  find_hour_blocks (map label_text ls) = Ok (merged_by_starts ls)
  /\ find_hour_blocks ["12:00-13:00"; "12:30-13:00"] = Ok ["12:00-13:00"].
Proof.
  intros H. split; [now apply find_hour_blocks_merged | reflexivity].
Qed.

Lemma find_hour_blocks_reads_starts_witness :
  find_hour_blocks
    (map label_text
       [ {| start_h := 12; start_m := 0; end_h := 14; end_m := 45 |};
         {| start_h := 12; start_m := 30; end_h := 13; end_m := 0 |} ]) =
    Ok ["12:00-13:00"].
Proof.
  apply (find_hour_blocks_reads_starts
           [ {| start_h := 12; start_m := 0; end_h := 14; end_m := 45 |};
             {| start_h := 12; start_m := 30; end_h := 13; end_m := 0 |} ]).
  repeat constructor; cbn; lia.
Defined.

(** ** Sets, dictionaries and sorting *)

Lemma mem_In x xs : mem x xs = true <-> In x xs.
Proof.
  unfold mem. rewrite existsb_exists. split.
  - intros (y & Hy & E). apply String.eqb_eq in E. now subst.
  - intros H. exists x. split; [assumption | apply String.eqb_refl].
Qed.

Lemma set_add_all_In x xs : forall seen,
  In x (set_add_all seen xs) <-> In x seen \/ In x xs.
Proof.
  induction xs as [| y xs IH]; intros seen; simpl; [tauto|].
  rewrite IH. destruct (mem y seen) eqn:E.
  - apply mem_In in E. intuition (subst; auto).
  - rewrite in_app_iff. simpl. tauto.
Qed.

Lemma set_add_all_NoDup xs : forall seen, NoDup seen -> NoDup (set_add_all seen xs).
Proof.
  induction xs as [| y xs IH]; intros seen H; simpl; [assumption|].
  apply IH. destruct (mem y seen) eqn:E; [assumption|].
  apply NoDup_app; [assumption | repeat constructor; simpl; tauto |].
  intros z Hz [-> | []]. apply mem_In in Hz. congruence.
Qed.

Lemma set_of_In x xs : In x (set_of xs) <-> In x xs.
Proof. unfold set_of. rewrite set_add_all_In. simpl. tauto. Qed.

Lemma set_of_NoDup xs : NoDup (set_of xs).
Proof. apply set_add_all_NoDup. constructor. Qed.

Lemma intersection_In x s xs : In x (intersection s xs) <-> In x s /\ In x xs.
Proof.
  unfold intersection. rewrite set_of_In, filter_In, mem_In. tauto.
Qed.

Lemma intersection_NoDup s xs : NoDup (intersection s xs).
Proof. apply set_of_NoDup. Qed.

Lemma get_In {V : Type} (d : dict V) k v : get d k = Some v -> In (k, v) d.
Proof.
  induction d as [| [k' v'] d IH]; simpl; [discriminate|].
  destruct (String.eqb k k') eqn:E.
  - apply String.eqb_eq in E. intros [= ->]. subst. now left.
  - intros H. right. auto.
Qed.

Lemma In_get {V : Type} (d : dict V) k v :
  NoDup (keys d) -> In (k, v) d -> get d k = Some v.
Proof.
  induction d as [| [k' v'] d IH]; simpl; [tauto|].
  intros Hnd [E | Hin]; inversion Hnd as [| ? ? Hnotin Hnd']; subst.
  - injection E as -> ->. now rewrite String.eqb_refl.
  - destruct (String.eqb k k') eqn:E; [|auto].
    apply String.eqb_eq in E. subst k'.
    exfalso. apply Hnotin. unfold keys. now apply (in_map fst) in Hin.
Qed.

(** The only exception of [slot_to_minutes] is [ValueError]. *)
Lemma slot_to_minutes_raises x e : slot_to_minutes x = Raise e -> e = ValueError.
Proof.
  unfold slot_to_minutes, index, split.
  destruct (split_pieces "-" x) as [start_str ps]. simpl nth_error. cbn [bind].
  destruct (let (p, ps0) := split_pieces ":" start_str in p :: ps0) as [| hh [| mm [| ? ?]]];
    try congruence.
  unfold int.
  repeat match goal with
         | |- context [match ?t with _ => _ end] => destruct t; cbn [bind]; try congruence
         end.
Qed.

Lemma insert_by_key_perm {A : Type} k (x : A) l :
  Permutation (insert_by_key k x l) ((k, x) :: l).
Proof.
  induction l as [| [k' y] l IH]; simpl; [reflexivity|].
  destruct (k <=? k'); [reflexivity|].
  rewrite IH. apply perm_swap.
Qed.

Lemma sort_keyed_perm {A : Type} (l : list (Z * A)) : Permutation (sort_keyed l) l.
Proof.
  induction l as [| [k x] l IH]; simpl; [reflexivity|].
  rewrite insert_by_key_perm. now constructor.
Qed.

Lemma insert_by_key_sorted {A : Type} k (x : A) l :
  StronglySorted key_le l -> StronglySorted key_le (insert_by_key k x l).
Proof.
  induction 1 as [| [k' y] l Hs IH Hall]; simpl.
  - repeat constructor.
  - destruct (k <=? k') eqn:E.
    + apply Z.leb_le in E. constructor; [now constructor|].
      constructor; [exact E|].
      eapply Forall_impl; [| exact Hall]. unfold key_le. simpl. intros a Ha. lia.
    + apply Z.leb_gt in E. constructor; [exact IH|].
      eapply Permutation_Forall; [symmetry; apply insert_by_key_perm|].
      constructor; [unfold key_le; simpl; lia | exact Hall].
Qed.

Lemma sort_keyed_sorted {A : Type} (l : list (Z * A)) : StronglySorted key_le (sort_keyed l).
Proof.
  induction l as [| [k x] l IH]; simpl; [constructor|].
  now apply insert_by_key_sorted.
Qed.

(** Two lists sorted by key with the same elements are equal when no two
    elements share a key. *)
Lemma sorted_by_key_unique {A : Type} (l1 : list (Z * A)) :
  forall l2,
    StronglySorted key_le l1 -> StronglySorted key_le l2 -> Permutation l1 l2 ->
    (forall a b, In a l1 -> In b l1 -> fst a = fst b -> a = b) ->
    l1 = l2.
Proof.
  induction l1 as [| a l1 IH]; intros l2 H1 H2 Hp Hinj.
  - apply Permutation_nil in Hp. now subst.
  - destruct l2 as [| b l2]; [symmetry in Hp; now apply Permutation_nil in Hp|].
    inversion H1 as [| ? ? Hs1 Hall1]; subst.
    inversion H2 as [| ? ? Hs2 Hall2]; subst.
    rewrite Forall_forall in Hall1, Hall2.
    assert (Hab : a = b).
    { assert (Hb : In b (a :: l1)) by (eapply Permutation_in; [symmetry; exact Hp | now left]).
      assert (Ha : In a (b :: l2)) by (eapply Permutation_in; [exact Hp | now left]).
      destruct Hb as [-> | Hb]; [reflexivity|].
      destruct Ha as [-> | Ha]; [reflexivity|].
      apply Hinj; [now left | now right |].
      specialize (Hall1 b Hb). specialize (Hall2 a Ha). unfold key_le in *. lia. }
    subst b. f_equal. apply IH; try assumption.
    + now apply Permutation_cons_inv in Hp.
    + intros x y Hx Hy. apply Hinj; now right.
Qed.

Lemma sort_keyed_permuted {A : Type} (l1 l2 : list (Z * A)) :
  Permutation l1 l2 ->
  (forall a b, In a l1 -> In b l1 -> fst a = fst b -> a = b) ->
  sort_keyed l1 = sort_keyed l2.
Proof.
  intros Hp Hinj. apply sorted_by_key_unique; try apply sort_keyed_sorted.
  - rewrite !sort_keyed_perm. exact Hp.
  - intros a b Ha Hb. apply Hinj; eapply Permutation_in; try apply sort_keyed_perm; assumption.
Qed.

(** ** [sorted] with [slot_to_minutes] as key *)

Lemma readable_dec x : {readable x} + {slot_to_minutes x = Raise ValueError}.
Proof.
  unfold readable. destruct (slot_to_minutes x) as [k | e] eqn:E.
  - left. now exists k.
  - right. now rewrite (slot_to_minutes_raises x e E).
Qed.

Lemma start_or_zero_readable x : readable x -> slot_to_minutes x = Ok (start_or_zero x).
Proof. intros [k E]. unfold start_or_zero. now rewrite E. Qed.

Lemma sorted_readable xs :
  Forall readable xs ->
  sorted slot_to_minutes xs = Ok (map snd (sort_keyed (map (fun x => (start_or_zero x, x)) xs))).
Proof.
  intros H. unfold sorted.
  assert (E : map_each (fun x => fmap (fun k => (k, x)) (slot_to_minutes x)) xs =
              Ok (map (fun x => (start_or_zero x, x)) xs)).
  { induction H as [| x xs Hx _ IH]; [reflexivity|].
    cbn [map_each map]. rewrite (start_or_zero_readable x Hx), IH. reflexivity. }
  now rewrite E.
Qed.

Lemma sorted_unreadable xs :
  ~ Forall readable xs -> sorted slot_to_minutes xs = Raise ValueError.
Proof.
  intros H. unfold sorted.
  assert (E : map_each (fun x => fmap (fun k => (k, x)) (slot_to_minutes x)) xs =
              Raise ValueError).
  { induction xs as [| x xs IH]; [exfalso; apply H; constructor|].
    cbn [map_each]. destruct (readable_dec x) as [Hx | Hx].
    - rewrite (start_or_zero_readable x Hx). cbn [fmap bind].
      rewrite IH; [reflexivity|]. intros Hall. apply H. now constructor.
    - now rewrite Hx. }
  now rewrite E.
Qed.

Lemma Forall_readable_dec xs : {Forall readable xs} + {~ Forall readable xs}.
Proof.
  apply Forall_dec. intros x. destruct (readable_dec x) as [H | H]; [now left | right].
  intros [k E]. congruence.
Qed.

Lemma sorted_inv xs ys :
  sorted slot_to_minutes xs = Ok ys ->
  Forall readable xs /\
  ys = map snd (sort_keyed (map (fun x => (start_or_zero x, x)) xs)).
Proof.
  intros H. destruct (Forall_readable_dec xs) as [Hr | Hr].
  - rewrite (sorted_readable xs Hr) in H. injection H as <-. auto.
  - rewrite (sorted_unreadable xs Hr) in H. discriminate.
Qed.

Lemma keyed_sorted_starts (l : list (Z * string)) :
  StronglySorted key_le l ->
  Forall (fun a => slot_to_minutes (snd a) = Ok (fst a)) l ->
  StronglySorted starts_le (map snd l).
Proof.
  induction 1 as [| a l Hs IH Hle]; intros Hall; [constructor|].
  inversion Hall as [| ? ? Ha Hall']; subst.
  cbn [map]. constructor; [now apply IH|].
  rewrite Forall_forall in Hle, Hall'. apply Forall_forall. intros y Hy.
  apply in_map_iff in Hy as (b & <- & Hb).
  exists (fst a), (fst b). repeat split; auto. now apply Hle.
Qed.

(** What [sorted] returns: the elements, in ascending order of start. *)
Lemma sorted_spec xs ys :
  sorted slot_to_minutes xs = Ok ys ->
  Permutation ys xs /\ StronglySorted starts_le ys.
Proof.
  intros H. apply sorted_inv in H as [Hr ->].
  set (keyed := map (fun x => (start_or_zero x, x)) xs).
  assert (Hp : Permutation (sort_keyed keyed) keyed) by apply sort_keyed_perm.
  split.
  - rewrite Hp. unfold keyed. rewrite map_map. cbn. now rewrite map_id.
  - apply keyed_sorted_starts; [apply sort_keyed_sorted|].
    eapply Permutation_Forall; [symmetry; exact Hp|].
    unfold keyed. apply Forall_forall. intros a Ha.
    apply in_map_iff in Ha as (x & <- & Hx). cbn.
    rewrite Forall_forall in Hr. now apply start_or_zero_readable, Hr.
Qed.

(** Sorting two arrangements of the same labels: the same exception, or
    the same labels; the same list when starts tell the labels apart. *)
Lemma sorted_permuted xs xs' :
  Permutation xs xs' ->
  (forall a b k, In a xs -> In b xs ->
                 slot_to_minutes a = Ok k -> slot_to_minutes b = Ok k -> a = b) ->
  sorted slot_to_minutes xs = sorted slot_to_minutes xs'.
Proof.
  intros Hp Hinj. destruct (Forall_readable_dec xs) as [Hr | Hr].
  - assert (Hr' : Forall readable xs') by (eapply Permutation_Forall; eauto).
    rewrite (sorted_readable xs Hr), (sorted_readable xs' Hr'). do 2 f_equal.
    apply sort_keyed_permuted; [now apply Permutation_map|].
    intros a b Ha Hb Hk.
    apply in_map_iff in Ha as (x & <- & Hx). apply in_map_iff in Hb as (y & <- & Hy).
    cbn in Hk. rewrite Forall_forall in Hr.
    assert (x = y); [|now subst].
    apply (Hinj x y (start_or_zero x)); auto.
    + now apply start_or_zero_readable, Hr.
    + rewrite Hk. now apply start_or_zero_readable, Hr.
  - assert (Hr' : ~ Forall readable xs').
    { intros H. apply Hr. eapply Permutation_Forall; [symmetry|]; eauto. }
    now rewrite (sorted_unreadable xs Hr), (sorted_unreadable xs' Hr').
Qed.

(** ** The intersection of a weekday *)

Lemma getitem_entry {V : Type} (d : dict V) k v :
  NoDup (keys d) -> In (k, v) d -> getitem d k = Ok v.
Proof. intros Hnd Hin. unfold getitem. now rewrite (In_get d k v Hnd Hin). Qed.

(** The loop over the further persons, entry by entry. *)
Lemma for_each_persons (selected_data : dict (dict (list string))) tag :
  NoDup (keys selected_data) ->
  forall entries set_slots,
    incl entries selected_data ->
    for_each (keys entries)
      (fun set_slots p =>
         days <- getitem selected_data p ;;
         slots <- getitem days tag ;;
         Ok (intersection set_slots slots))
      set_slots
    = if forallb (has_day tag) entries
      then Ok (fold_left (fun set_slots entry =>
                            intersection set_slots (get_default (snd entry) tag []))
                         entries set_slots)
      else Raise KeyError.
Proof.
  intros Hnd. induction entries as [| [p days] entries IH]; intros set_slots Hincl.
  - reflexivity.
  - cbn [keys map fst for_each forallb fold_left].
    rewrite (getitem_entry selected_data p days Hnd) by (apply Hincl; now left).
    cbn [bind]. unfold has_day at 1, getitem, get_default. cbn [snd].
    destruct (get days tag) as [slots |]; cbn [bind andb]; [|reflexivity].
    apply IH. intros e He. apply Hincl. now right.
Qed.

Lemma common_halfhours_unfold {order : SetOrder}
    (selected_data : dict (dict (list string))) tag :
  NoDup (keys selected_data) -> selected_data <> [] ->
  common_halfhours selected_data (keys selected_data) tag =
    if forallb (has_day tag) selected_data
    then sorted slot_to_minutes (set_iter (seeded_intersection tag selected_data))
    else Raise KeyError.
Proof.
  intros Hnd Hne. destruct selected_data as [| [p days] others]; [congruence|].
  unfold common_halfhours. cbn [keys map fst index nth_error bind tl].
  rewrite (getitem_entry _ p days Hnd) by now left. cbn [bind].
  cbn [forallb seeded_intersection]. unfold has_day at 1, getitem, get_default at 2.
  cbn [snd]. destruct (get days tag) as [slots |]; cbn [bind andb]; [|reflexivity].
  change (map fst others) with (keys others).
  rewrite (for_each_persons _ tag Hnd) by (intros e He; now right).
  destruct (forallb (has_day tag) others); reflexivity.
Qed.

Lemma fold_intersection_In (f : string * dict (list string) -> list string) x :
  forall entries acc,
    In x (fold_left (fun s e => intersection s (f e)) entries acc) <->
    In x acc /\ forall e, In e entries -> In x (f e).
Proof.
  induction entries as [| e entries IH]; intros acc; cbn [fold_left].
  - simpl. tauto.
  - rewrite IH, intersection_In. simpl. split.
    + intros [[Ha He] Hall]. split; [assumption|]. intros e' [<- | H]; auto.
    + intros [Ha Hall]. auto.
Qed.

Lemma fold_intersection_NoDup (f : string * dict (list string) -> list string) :
  forall entries acc,
    NoDup acc -> NoDup (fold_left (fun s e => intersection s (f e)) entries acc).
Proof.
  induction entries as [| e entries IH]; intros acc H; cbn [fold_left]; [assumption|].
  apply IH, intersection_NoDup.
Qed.

(** The common set holds the labels that every person's entry holds. *)
Lemma seeded_intersection_In tag selected_data x :
  selected_data <> [] ->
  In x (seeded_intersection tag selected_data) <->
  forall e, In e selected_data -> In x (get_default (snd e) tag []).
Proof.
  intros Hne. destruct selected_data as [| first others]; [congruence|].
  cbn [seeded_intersection]. rewrite fold_intersection_In, set_of_In. simpl. split.
  - intros [H0 Hall] e [<- | He]; auto.
  - intros H. auto.
Qed.

Lemma seeded_intersection_NoDup tag selected_data :
  NoDup (seeded_intersection tag selected_data).
Proof.
  destruct selected_data as [| first others]; [constructor|].
  apply fold_intersection_NoDup, set_of_NoDup.
Qed.

Lemma seeded_intersection_permuted tag d d' :
  Permutation d d' ->
  Permutation (seeded_intersection tag d) (seeded_intersection tag d').
Proof.
  intros Hp. destruct d as [| e d].
  - apply Permutation_nil in Hp. subst. reflexivity.
  - assert (Hne' : d' <> []).
    { intros ->. symmetry in Hp. now apply Permutation_nil in Hp. }
    apply NoDup_Permutation; try apply seeded_intersection_NoDup.
    intros x. rewrite !seeded_intersection_In by (assumption || discriminate).
    split; intros H e0 He0; apply H.
    + eapply Permutation_in; [symmetry|]; eauto.
    + eapply Permutation_in; eauto.
Qed.

Lemma forallb_permuted {A : Type} (f : A -> bool) l l' :
  Permutation l l' -> forallb f l = forallb f l'.
Proof.
  induction 1 as [| x l l' _ IH | x y l | l l' l'' _ IH1 _ IH2]; cbn.
  - reflexivity.
  - now rewrite IH.
  - destruct (f x), (f y); reflexivity.
  - congruence.
Qed.

(** ** The loop over the weekdays *)

Lemma setitem_new {V : Type} (d : dict V) k v :
  ~ In k (keys d) -> setitem d k v = (d ++ [(k, v)])%list.
Proof.
  induction d as [| [k' v'] d IH]; cbn; [reflexivity|].
  intros H. destruct (String.eqb k k') eqn:E.
  - apply String.eqb_eq in E. subst k'. exfalso. apply H. now left.
  - rewrite IH by (intros Hin; apply H; now right). reflexivity.
Qed.

Lemma for_each_setitem {V : Type} (F : string -> result V) :
  forall tags acc,
    NoDup tags -> (forall t, In t tags -> ~ In t (keys acc)) ->
    for_each tags (fun d tag => v <- F tag ;; Ok (setitem d tag v)) acc =
      fmap (fun vs => (acc ++ combine tags vs)%list) (map_each F tags).
Proof.
  induction tags as [| tag tags IH]; intros acc Hnd Hfresh.
  - cbn. now rewrite app_nil_r.
  - inversion Hnd as [| ? ? Hnotin Hnd']; subst.
    cbn [for_each map_each]. destruct (F tag) as [v | e]; cbn [bind fmap]; [|reflexivity].
    rewrite setitem_new by (apply Hfresh; now left).
    rewrite IH; [| assumption |].
    + destruct (map_each F tags) as [vs | e]; cbn; [|reflexivity].
      now rewrite <- app_assoc.
    + intros t Ht. unfold keys. rewrite map_app, in_app_iff. cbn.
      intros [H | [<- | []]]; [|contradiction].
      apply (Hfresh t); [now right | exact H].
Qed.

Lemma TAGE_NoDup : NoDup TAGE.
Proof.
  unfold TAGE. repeat constructor; cbn; intuition discriminate.
Qed.

(** [find_common_slots], weekday by weekday. *)
Lemma find_common_slots_unfold {order : SetOrder} selected_data meeting_length :
  find_common_slots selected_data meeting_length =
    if (List.length (keys selected_data) <? 2)%nat then Ok []
    else fmap (combine TAGE) (map_each (day_blocks selected_data meeting_length) TAGE).
Proof.
  unfold find_common_slots. cbv zeta.
  destruct (List.length (keys selected_data) <? 2)%nat; [reflexivity|].
  rewrite <- (for_each_setitem (day_blocks selected_data meeting_length) TAGE [])
    by (try apply TAGE_NoDup; cbn; tauto).
  generalize (@nil (string * list string)) TAGE.
  intros acc tags. revert acc. induction tags as [| tag tags IH]; intros acc; [reflexivity|].
  cbn [for_each]. unfold day_blocks at 1.
  destruct (common_halfhours selected_data (keys selected_data) tag) as [hl | e];
    cbn [bind]; [|reflexivity].
  destruct (meeting_length =? 30); cbn [bind]; [apply IH|].
  destruct (find_hour_blocks hl); cbn [bind]; [apply IH | reflexivity].
Qed.

Lemma map_each_length {A B : Type} (F : A -> result B) xs ys :
  map_each F xs = Ok ys -> List.length ys = List.length xs.
Proof.
  revert ys. induction xs as [| x xs IH]; intros ys; cbn.
  - intros [= <-]. reflexivity.
  - destruct (F x); cbn; [|discriminate].
    destruct (map_each F xs); cbn; [|discriminate].
    intros [= <-]. cbn. f_equal. now apply IH.
Qed.

(** The entry of a key in the result is what the round of that key gave. *)
Lemma map_each_get {V : Type} (F : string -> result V) tags vs tag v :
  map_each F tags = Ok vs -> get (combine tags vs) tag = Some v ->
  In tag tags /\ F tag = Ok v.
Proof.
  revert vs. induction tags as [| t tags IH]; intros vs; cbn.
  - intros [= <-]. discriminate.
  - destruct (F t) as [v0 |] eqn:E0; cbn; [|discriminate].
    destruct (map_each F tags) as [vs0 |]; cbn; [|discriminate].
    intros [= <-]. cbn. destruct (String.eqb tag t) eqn:E.
    + apply String.eqb_eq in E. subst t. intros [= <-]. auto.
    + intros H. destruct (IH vs0 eq_refl H). auto.
Qed.

Lemma map_each_get_In {V : Type} (F : string -> result V) tags vs tag :
  map_each F tags = Ok vs -> In tag tags ->
  exists v, get (combine tags vs) tag = Some v /\ F tag = Ok v.
Proof.
  revert vs. induction tags as [| t tags IH]; intros vs; cbn; [tauto|].
  destruct (F t) as [v0 |] eqn:E0; cbn; [|discriminate].
  destruct (map_each F tags) as [vs0 |]; cbn; [|discriminate].
  intros [= <-] Hin. cbn. destruct (String.eqb tag t) eqn:E.
  - apply String.eqb_eq in E. subst t. eauto.
  - apply IH; [reflexivity|]. destruct Hin as [-> | Hin]; [|assumption].
    now rewrite String.eqb_refl in E.
Qed.

Lemma map_each_total {A B : Type} (F : A -> result B) xs :
  (forall x, In x xs -> exists y, F x = Ok y) -> exists ys, map_each F xs = Ok ys.
Proof.
  induction xs as [| x xs IH]; intros H; cbn; [eauto|].
  destruct (H x (or_introl eq_refl)) as [y ->].
  destruct IH as [ys ->]; [intros x' Hx'; apply H; now right|].
  cbn. eauto.
Qed.

Lemma map_each_ext {A B : Type} (F G : A -> result B) xs :
  (forall x, In x xs -> F x = G x) -> map_each F xs = map_each G xs.
Proof.
  induction xs as [| x xs IH]; intros H; cbn; [reflexivity|].
  rewrite (H x (or_introl eq_refl)), IH; [reflexivity|].
  intros x' Hx'. apply H. now right.
Qed.

Lemma keys_combine {V : Type} (tags : list string) (vs : list V) :
  List.length vs = List.length tags -> keys (combine tags vs) = tags.
Proof.
  revert vs. induction tags as [| t tags IH]; intros [| v vs]; cbn; try discriminate; auto.
  intros [= H]. f_equal. now apply IH.
Qed.

(** ** Snapshots *)

Lemma all_labels_In selected_data p days tag slots x :
  In (p, days) selected_data -> get days tag = Some slots -> In x slots ->
  In x (all_labels selected_data).
Proof.
  intros Hp Hd Hx. unfold all_labels. apply in_flat_map.
  exists (p, days). split; [assumption|]. cbn [snd]. apply in_flat_map.
  exists (tag, slots). split; [now apply get_In | assumption].
Qed.

Lemma has_day_all tag selected_data :
  forallb (has_day tag) selected_data = true <->
  forall p days, In (p, days) selected_data -> exists slots, get days tag = Some slots.
Proof.
  rewrite forallb_forall. unfold has_day. split.
  - intros H p days Hin. specialize (H (p, days) Hin). cbn [snd] in H.
    destruct (get days tag) as [slots |]; [eauto | discriminate].
  - intros H [p days] Hin. cbn [snd]. destruct (H p days Hin) as [slots ->]. reflexivity.
Qed.

Lemma seeded_intersection_members tag selected_data x :
  selected_data <> [] -> forallb (has_day tag) selected_data = true ->
  (In x (seeded_intersection tag selected_data) <->
   forall p days, In (p, days) selected_data ->
                  exists slots, get days tag = Some slots /\ In x slots).
Proof.
  intros Hne Hall. rewrite seeded_intersection_In by assumption.
  rewrite has_day_all in Hall. split.
  - intros H p days Hin. destruct (Hall p days Hin) as [slots E].
    exists slots. split; [assumption|].
    specialize (H (p, days) Hin). unfold get_default in H. cbn [snd] in H.
    now rewrite E in H.
  - intros H [p days] Hin. destruct (H p days Hin) as (slots & E & Hx).
    unfold get_default. cbn [snd]. now rewrite E.
Qed.

Lemma seeded_intersection_labels tag selected_data x :
  selected_data <> [] -> forallb (has_day tag) selected_data = true ->
  In x (seeded_intersection tag selected_data) -> In x (all_labels selected_data).
Proof.
  intros Hne Hall Hx. destruct selected_data as [| [p days] others]; [congruence|].
  rewrite seeded_intersection_members in Hx by assumption.
  destruct (Hx p days (or_introl eq_refl)) as (slots & E & Hin).
  eapply all_labels_In; eauto. now left.
Qed.

Lemma distinct_startsb_spec l : distinct_startsb l = true -> distinct_starts_in l.
Proof.
  unfold distinct_startsb, distinct_starts_in. rewrite forallb_forall.
  intros H x y k Hx Hy Ex Ey. specialize (H x Hx). rewrite forallb_forall in H.
  specialize (H y Hy). apply orb_prop in H as [H | H].
  - now apply String.eqb_eq.
  - unfold same_start in H. rewrite Ex, Ey, Z.eqb_refl in H. discriminate.
Qed.

Lemma set_iter_In {order : SetOrder} s x : In x (set_iter s) <-> In x s.
Proof.
  split; intros H; eapply Permutation_in; try exact H;
    [apply set_iter_perm | symmetry; apply set_iter_perm].
Qed.

(** With distinct starts the iteration order of the set does not show. *)
Lemma sorted_set_iter {order : SetOrder} s :
  distinct_starts_in s ->
  sorted slot_to_minutes (set_iter s) = sorted slot_to_minutes s.
Proof.
  intros H. apply sorted_permuted; [apply set_iter_perm|].
  intros a b k Ha Hb. apply H; now apply set_iter_In.
Qed.

Lemma day_blocks_order_free {order : SetOrder} selected_data meeting_length tag :
  NoDup (keys selected_data) -> selected_data <> [] ->
  distinct_starts_in (seeded_intersection tag selected_data) ->
  @day_blocks order selected_data meeting_length tag =
    @day_blocks insertion_order selected_data meeting_length tag.
Proof.
  intros Hnd Hne Hd. unfold day_blocks.
  rewrite !common_halfhours_unfold by assumption.
  destruct (forallb (has_day tag) selected_data); [|reflexivity].
  rewrite sorted_set_iter by assumption. reflexivity.
Qed.

Lemma find_common_slots_order_free {order : SetOrder} selected_data meeting_length :
  NoDup (keys selected_data) ->
  forallb (fun tag => distinct_startsb (seeded_intersection tag selected_data)) TAGE = true ->
  @find_common_slots order selected_data meeting_length =
    @find_common_slots insertion_order selected_data meeting_length.
Proof.
  intros Hnd Hd. rewrite !find_common_slots_unfold.
  destruct (List.length (keys selected_data) <? 2)%nat eqn:E; [reflexivity|].
  f_equal. apply map_each_ext. intros tag Htag.
  apply day_blocks_order_free; [assumption | |].
  - intros ->. discriminate.
  - rewrite forallb_forall in Hd. now apply distinct_startsb_spec, Hd.
Qed.

Lemma keys_NoDup_check {V : Type} (d : dict V) :
  forallb (fun k => (count_occ string_dec (keys d) k =? 1)%nat) (keys d) = true ->
  NoDup (keys d).
Proof.
  intros H. rewrite forallb_forall in H.
  apply (NoDup_count_occ' string_dec). intros k Hk. now apply Nat.eqb_eq, H.
Qed.

(** What a weekday's round returns in 30-minute mode. *)
Lemma day_blocks_30_inv {order : SetOrder} selected_data tag halfhour_list :
  NoDup (keys selected_data) -> selected_data <> [] ->
  day_blocks selected_data 30 tag = Ok halfhour_list ->
  forallb (has_day tag) selected_data = true
  /\ sorted slot_to_minutes (set_iter (seeded_intersection tag selected_data))
     = Ok halfhour_list
  /\ (forall x, In x halfhour_list <-> In x (seeded_intersection tag selected_data))
  /\ NoDup halfhour_list
  /\ StronglySorted starts_le halfhour_list.
Proof.
  intros Hnd Hne H. unfold day_blocks in H.
  rewrite common_halfhours_unfold in H by assumption.
  destruct (forallb (has_day tag) selected_data); [|discriminate].
  destruct (sorted slot_to_minutes (set_iter (seeded_intersection tag selected_data)))
    as [hl |] eqn:E; [|discriminate].
  cbn in H. injection H as ->.
  destruct (sorted_spec _ _ E) as [Hp Hs].
  assert (Hp' : Permutation halfhour_list (seeded_intersection tag selected_data))
    by (rewrite Hp; apply set_iter_perm).
  repeat split; try assumption.
  - intros Hx. eapply Permutation_in; eauto.
  - intros Hx. eapply Permutation_in; [symmetry|]; eauto.
  - eapply Permutation_NoDup; [symmetry; exact Hp' | apply seeded_intersection_NoDup].
Qed.

(** A weekday's round returns when every person has the weekday and the
    labels can be read. *)
Lemma day_blocks_30_total {order : SetOrder} selected_data tag :
  NoDup (keys selected_data) -> selected_data <> [] ->
  all_weekdays selected_data -> Forall readable (all_labels selected_data) ->
  In tag TAGE ->
  exists halfhour_list, day_blocks selected_data 30 tag = Ok halfhour_list.
Proof.
  intros Hnd Hne Hdays Hread Htag. unfold day_blocks.
  rewrite common_halfhours_unfold by assumption.
  assert (Hall : forallb (has_day tag) selected_data = true).
  { apply has_day_all. intros p days Hin. specialize (Hdays p days tag Hin Htag).
    destruct (get days tag) as [slots |]; [eauto | congruence]. }
  rewrite Hall. rewrite sorted_readable; [cbn; eauto|].
  apply Forall_forall. intros x Hx. apply (proj1 (set_iter_In _ _)) in Hx.
  rewrite Forall_forall in Hread. apply Hread.
  now apply (seeded_intersection_labels tag).
Qed.

(** ** Claims on the intersection *)

(** Closed instances of the snapshot conditions. *)
Ltac weekdays_present :=
  let p := fresh "p" in
  let days := fresh "days" in
  let tag := fresh "tag" in
  let Hin := fresh "Hin" in
  let Htag := fresh "Htag" in
  intros p days tag Hin Htag; cbv in Hin, Htag;
  repeat (destruct Hin as [Hin | Hin]; [injection Hin as <- <- | ]); try contradiction;
  repeat (destruct Htag as [Htag | Htag]; [subst tag; vm_compute; discriminate | ]);
  contradiction.

Ltac labels_readable :=
  cbv [all_labels flat_map every_day TAGE map snd app];
  repeat constructor; eexists; vm_compute; reflexivity.

Lemma StronglySorted_impl {A : Type} (R R' : A -> A -> Prop) l :
  (forall a b, R a b -> R' a b) -> StronglySorted R l -> StronglySorted R' l.
Proof.
  intros H. induction 1 as [| a l Hs IH Hall]; constructor; [exact IH|].
  eapply Forall_impl; [|exact Hall]. intros b. apply H.
Qed.

(** The start that the code reads is the start that the label shows. *)
Lemma starts_le_fields a b : starts_le a b -> fields_le a b.
Proof.
  intros (ka & kb & Ha & Hb & Hle) ha ma hb mb
         (Hha & Hma & ra & ->) (Hhb & Hmb & rb & ->).
  rewrite slot_to_minutes_hm in Ha, Hb by assumption.
  assert (Ea : ka = ha * 60 + ma) by congruence.
  assert (Eb : kb = hb * 60 + mb) by congruence.
  lia.
Qed.

(** C1: for a snapshot of at least two persons (a dictionary, so no person
    twice) in which every person has an entry for each weekday and every
    label has a readable start, [find_common_slots] with meeting length 30
    returns a dictionary with the five weekdays as keys; the entry of a
    weekday is the sorted list of the set that starts as the first
    person's slots of that day and is intersected, person after person,
    with the slots of each further person.  It holds the labels that all
    persons have on that day, each once, in ascending order of start: of
    the start the code reads and, for labels written "HH:MM-...", of the
    minutes 60 HH + MM that the label shows. *)
Theorem find_common_slots_intersection {order : SetOrder}
    (selected_data : dict (dict (list string))) :
  NoDup (keys selected_data) -> (2 <= List.length selected_data)%nat ->
  all_weekdays selected_data -> Forall readable (all_labels selected_data) ->
  exists common_per_day,
    find_common_slots selected_data 30 = Ok common_per_day
    /\ keys common_per_day = TAGE
    /\ forall tag, In tag TAGE ->
         exists halfhour_list,
           get common_per_day tag = Some halfhour_list
           /\ sorted slot_to_minutes (set_iter (seeded_intersection tag selected_data))
              = Ok halfhour_list
           /\ (forall x, In x halfhour_list <->
                         forall p days, In (p, days) selected_data ->
                                        exists slots, get days tag = Some slots /\ In x slots)
           /\ NoDup halfhour_list
           /\ StronglySorted starts_le halfhour_list
           /\ StronglySorted fields_le halfhour_list.
Proof.
  intros Hnd Hlen Hdays Hread.
  assert (Hne : selected_data <> []) by (intros ->; cbn in Hlen; lia).
  destruct (map_each_total (day_blocks selected_data 30) TAGE) as [vs Hvs].
  { intros tag Htag. now apply day_blocks_30_total. }
  exists (combine TAGE vs). rewrite find_common_slots_unfold.
  unfold keys at 1. rewrite length_map.
  destruct (Nat.ltb_spec (List.length selected_data) 2) as [Hlt | _]; [lia|].
  rewrite Hvs. split; [reflexivity|]. split.
  - apply keys_combine. now apply map_each_length in Hvs.
  - intros tag Htag.
    destruct (map_each_get_In _ _ _ tag Hvs Htag) as (hl & Hget & Hday).
    exists hl. split; [exact Hget|].
    destruct (day_blocks_30_inv _ _ _ Hnd Hne Hday) as (Hall & Hsorted & Hmem & Hnodup & Hord).
    split; [exact Hsorted|]. split; [| split; [exact Hnodup | split; [exact Hord|]]].
    + intros x. split.
      * intros Hx. apply (seeded_intersection_members tag); try assumption. now apply Hmem.
      * intros Hx. apply Hmem. now apply (seeded_intersection_members tag).
    + exact (StronglySorted_impl _ _ _ starts_le_fields Hord).
Qed.

Lemma find_common_slots_intersection_witness :
  @find_common_slots insertion_order two_free_hours 30 =
    Ok (every_day ["12:00-12:30"; "12:30-13:00"])
  /\ exists halfhour_list,
       get (every_day ["12:00-12:30"; "12:30-13:00"]) "Montag" = Some halfhour_list
       /\ StronglySorted fields_le halfhour_list
       /\ (In "12:00-12:30" halfhour_list /\ In "12:30-13:00" halfhour_list).
Proof.
  assert (Hres : @find_common_slots insertion_order two_free_hours 30 =
                   Ok (every_day ["12:00-12:30"; "12:30-13:00"]))
    by (vm_compute; reflexivity).
  split; [exact Hres|].
  destruct (@find_common_slots_intersection insertion_order two_free_hours)
    as (common_per_day & Hres' & _ & Hday).
  - apply keys_NoDup_check. reflexivity.
  - cbn. lia.
  - weekdays_present.
  - labels_readable.
  - assert (E : common_per_day = every_day ["12:00-12:30"; "12:30-13:00"])
      by congruence.
    subst common_per_day.
    destruct (Hday "Montag" ltac:(cbn; tauto))
      as (halfhour_list & Hget & _ & Hmem & _ & _ & Hfields).
    exists halfhour_list. split; [exact Hget|]. split; [exact Hfields|].
    split; apply Hmem; intros p days Hin; cbv in Hin;
      repeat (destruct Hin as [Hin | Hin]; [injection Hin as <- <- | ]);
      try contradiction; eexists; (split; [reflexivity | cbn; tauto]).
Defined.

(** C3, as the code has it: with fewer than two persons
    [find_common_slots] raises nothing and returns the empty dictionary.
    It has no key: reading a weekday with [d[tag]] raises [KeyError], and
    only a caller that supplies the default, [get(tag, [])] as [main]
    does, finds the empty list for a weekday. *)
Theorem find_common_slots_few_persons {order : SetOrder}
    (selected_data : dict (dict (list string))) (meeting_length : Z) :
  (List.length (keys selected_data) < 2)%nat ->
  exists common_per_day,
    find_common_slots selected_data meeting_length = Ok common_per_day
    /\ keys common_per_day = []
    /\ forall tag, In tag TAGE ->
         get common_per_day tag = None
         /\ getitem common_per_day tag = Raise KeyError
         /\ get_default common_per_day tag [] = [].
Proof.
  intros Hlen. exists []. rewrite find_common_slots_unfold.
  apply Nat.ltb_lt in Hlen. rewrite Hlen.
  split; [reflexivity|]. split; [reflexivity|].
  intros tag _. repeat split.
Qed.

Lemma find_common_slots_few_persons_witness :
  exists common_per_day,
    @find_common_slots insertion_order one_person 60 = Ok common_per_day
    /\ keys common_per_day = []
    /\ forall tag, In tag TAGE ->
         get common_per_day tag = None
         /\ getitem common_per_day tag = Raise KeyError
         /\ get_default common_per_day tag [] = [].
Proof.
  apply (@find_common_slots_few_persons insertion_order one_person 60).
  cbn. lia.
Defined.

(** C3 fails as stated: for one person the call returns the dictionary
    without any key, so Monday, a weekday, has no sequence in the result,
    empty or not, and reading it with [d["Montag"]] raises; the same two
    labels given by two persons are reported under the five weekdays. *)
Lemma find_common_slots_one_person :
  (forall order : SetOrder,
      exists common_per_day,
        @find_common_slots order one_person 30 = Ok common_per_day
        /\ get common_per_day "Montag" = None
        /\ get common_per_day "Montag" <> Some []
        /\ getitem common_per_day "Montag" = Raise KeyError)
  /\ In "Montag" TAGE
  /\ (List.length (keys one_person) < 2)%nat
  /\ (forall order : SetOrder,
         exists common_per_day,
           @find_common_slots order two_free_hours 30 = Ok common_per_day
           /\ get common_per_day "Montag" = Some ["12:00-12:30"; "12:30-13:00"]).
Proof.
  split; [| split; [| split]].
  - intros order. exists []. repeat split. discriminate.
  - cbn. tauto.
  - cbn. lia.
  - intros order. exists (every_day ["12:00-12:30"; "12:30-13:00"]).
    split; [|reflexivity]. rewrite find_common_slots_order_free.
    + vm_compute. reflexivity.
    + apply keys_NoDup_check. reflexivity.
    + vm_compute. reflexivity.
Qed.

(** C4, as the code has it: every meeting length other than 30, in or out
    of {30, 60}, is handled as 60 and gives the hour blocks; no exception
    tells an unknown length apart. *)
Theorem find_common_slots_other_length {order : SetOrder}
    (selected_data : dict (dict (list string))) (meeting_length : Z) :
  meeting_length <> 30 ->
  find_common_slots selected_data meeting_length = find_common_slots selected_data 60.
Proof.
  intros Hlen. unfold find_common_slots.
  apply Z.eqb_neq in Hlen. rewrite Hlen.
  change (60 =? 30) with false. reflexivity.
Qed.

Lemma find_common_slots_other_length_witness :
  @find_common_slots insertion_order two_free_hours 45 =
    @find_common_slots insertion_order two_free_hours 60.
Proof.
  apply (@find_common_slots_other_length insertion_order). lia.
Defined.

(** C4 fails as stated: the length 45 is neither 30 nor 60, and for two
    persons free from 12:00 to 13:00 the call returns, for every set order,
    the hour blocks of the 60-minute mode instead of raising. *)
Lemma find_common_slots_length_45 :
  (forall order : SetOrder,
      @find_common_slots order two_free_hours 45 =
        Ok [("Montag", ["12:00-13:00"]); ("Dienstag", ["12:00-13:00"]);
            ("Mittwoch", ["12:00-13:00"]); ("Donnerstag", ["12:00-13:00"]);
            ("Freitag", ["12:00-13:00"])])
  /\ 45 <> 30 /\ 45 <> 60.
Proof.
  split; [| lia].
  intros order. rewrite find_common_slots_order_free.
  - vm_compute. reflexivity.
  - apply keys_NoDup_check. reflexivity.
  - vm_compute. reflexivity.
Qed.

Lemma find_common_slots_30_inv {order : SetOrder} selected_data common_per_day tag
    halfhour_list :
  NoDup (keys selected_data) ->
  find_common_slots selected_data 30 = Ok common_per_day ->
  get common_per_day tag = Some halfhour_list ->
  selected_data <> [] /\ In tag TAGE
  /\ day_blocks selected_data 30 tag = Ok halfhour_list.
Proof.
  intros Hnd Hres Hget. rewrite find_common_slots_unfold in Hres.
  destruct (List.length (keys selected_data) <? 2)%nat eqn:Hlen.
  - injection Hres as <-. discriminate.
  - destruct (map_each (day_blocks selected_data 30) TAGE) as [vs |] eqn:Hvs;
      [|discriminate].
    cbn [fmap bind] in Hres. injection Hres as <-.
    destruct (map_each_get _ _ _ _ _ Hvs Hget) as [Htag Hday].
    repeat split; try assumption. intros ->. discriminate.
Qed.

(** C6, as the code has it: the intersection does not look at the grid.
    When the call returns, the labels of a weekday's result are the labels
    that every chosen person's entry for that weekday holds.  So a label
    of the result is a grid label as soon as one chosen person's entry for
    that weekday holds grid labels only, and a label off the grid that all
    chosen persons share on the weekday is reported for it. *)
Theorem find_common_slots_labels_shared {order : SetOrder}
    (selected_data : dict (dict (list string))) (common_per_day : dict (list string))
    (tag : string) (halfhour_list : list string) :
  NoDup (keys selected_data) ->
  find_common_slots selected_data 30 = Ok common_per_day ->
  get common_per_day tag = Some halfhour_list ->
  (forall x, In x halfhour_list <->
             forall p days, In (p, days) selected_data ->
                            exists slots, get days tag = Some slots /\ In x slots)
  /\ (forall x, In x halfhour_list ->
                (exists p days slots,
                    In (p, days) selected_data /\ get days tag = Some slots
                    /\ Forall (fun y => In y HALF_HOUR_SLOTS) slots) ->
                In x HALF_HOUR_SLOTS)
  /\ (forall x, (forall p days, In (p, days) selected_data ->
                                exists slots, get days tag = Some slots /\ In x slots) ->
                ~ In x HALF_HOUR_SLOTS ->
                In x halfhour_list).
Proof.
  intros Hnd Hres Hget.
  destruct (find_common_slots_30_inv _ _ _ _ Hnd Hres Hget) as (Hne & Htag & Hday).
  destruct (day_blocks_30_inv _ _ _ Hnd Hne Hday) as (Hall & _ & Hmem & _).
  assert (Hiff : forall x, In x halfhour_list <->
                   forall p days, In (p, days) selected_data ->
                                  exists slots, get days tag = Some slots /\ In x slots).
  { intros x. rewrite (Hmem x).
    exact (seeded_intersection_members tag selected_data x Hne Hall). }
  split; [exact Hiff|]. split.
  - intros x Hx (p & days & slots & Hin & Hslots & Hgrid).
    destruct (proj1 (Hiff x) Hx p days Hin) as (slots' & Hslots' & Hx').
    rewrite Hslots in Hslots'. injection Hslots' as <-.
    rewrite Forall_forall in Hgrid. now apply Hgrid.
  - intros x Hshared _. now apply Hiff.
Qed.

Lemma find_common_slots_labels_shared_witness :
  (forall x, In x ["09:00-09:30"] <->
             forall p days, In (p, days) early_birds ->
                            exists slots, get days "Montag" = Some slots /\ In x slots)
  /\ (forall x, In x ["09:00-09:30"] ->
                (exists p days slots,
                    In (p, days) early_birds /\ get days "Montag" = Some slots
                    /\ Forall (fun y => In y HALF_HOUR_SLOTS) slots) ->
                In x HALF_HOUR_SLOTS)
  /\ (forall x, (forall p days, In (p, days) early_birds ->
                                exists slots, get days "Montag" = Some slots /\ In x slots) ->
                ~ In x HALF_HOUR_SLOTS ->
                In x ["09:00-09:30"]).
Proof.
  apply (@find_common_slots_labels_shared insertion_order early_birds
           (every_day ["09:00-09:30"]) "Montag" ["09:00-09:30"]).
  - apply keys_NoDup_check. reflexivity.
  - vm_compute. reflexivity.
  - reflexivity.
Defined.

(** C6 fails as stated: "09:00-09:30" is no label of the grid, yet when two
    persons share it the result of every weekday reports it; and an entry
    shared by all that is no time label makes the computation raise. *)
Lemma find_common_slots_off_grid :
  (forall order : SetOrder,
      @find_common_slots order early_birds 30 =
        Ok [("Montag", ["09:00-09:30"]); ("Dienstag", ["09:00-09:30"]);
            ("Mittwoch", ["09:00-09:30"]); ("Donnerstag", ["09:00-09:30"]);
            ("Freitag", ["09:00-09:30"])])
  /\ ~ In "09:00-09:30" HALF_HOUR_SLOTS
  /\ (forall order : SetOrder,
         @find_common_slots order stale_entries 30 = Raise ValueError).
Proof.
  split; [| split].
  - intros order. rewrite find_common_slots_order_free.
    + vm_compute. reflexivity.
    + apply keys_NoDup_check. reflexivity.
    + vm_compute. reflexivity.
  - intros H. apply mem_In in H. vm_compute in H. discriminate.
  - intros order. rewrite find_common_slots_order_free.
    + vm_compute. reflexivity.
    + apply keys_NoDup_check. reflexivity.
    + vm_compute. reflexivity.
Qed.

(** ** The order and the number of the persons *)

Lemma keys_permuted {V : Type} (d d' : dict V) :
  Permutation d d' -> Permutation (keys d) (keys d').
Proof. apply Permutation_map. Qed.

Lemma day_blocks_permuted {order : SetOrder} d d' meeting_length tag :
  NoDup (keys d) -> Permutation d d' -> d <> [] ->
  distinct_starts d \/ order_by_contents order ->
  day_blocks d' meeting_length tag = day_blocks d meeting_length tag.
Proof.
  intros Hnd Hp Hne Hor.
  assert (Hnd' : NoDup (keys d')) by (eapply Permutation_NoDup; [apply keys_permuted|]; eauto).
  assert (Hne' : d' <> []).
  { intros ->. symmetry in Hp. now apply Permutation_nil in Hp. }
  unfold day_blocks. rewrite !common_halfhours_unfold by assumption.
  rewrite (forallb_permuted _ d' d) by now symmetry.
  destruct (forallb (has_day tag) d) eqn:Hall; [|reflexivity].
  pose proof (seeded_intersection_permuted tag d d' Hp) as HS.
  assert (E : sorted slot_to_minutes (set_iter (seeded_intersection tag d')) =
              sorted slot_to_minutes (set_iter (seeded_intersection tag d))).
  { destruct Hor as [Hdist | Hcont].
    - symmetry. apply sorted_permuted.
      + rewrite !set_iter_perm. exact HS.
      + intros a b k Ha Hb. apply Hdist;
          apply (seeded_intersection_labels tag); try assumption;
          now apply (proj1 (set_iter_In _ _)).
    - f_equal. apply Hcont; try apply seeded_intersection_NoDup. now symmetry. }
  now rewrite E.
Qed.

(** C7: when the persons of a snapshot are supplied in another order,
    [find_common_slots] returns the same: the same dictionary of the same
    lists, or the same exception.  Python does not fix the order in which a
    set is iterated; it can only show in the result between two labels with
    the same start, so the statement is for snapshots without such labels
    (all grid labels differ in their start) or for a set order that
    depends on the elements only. *)
Theorem find_common_slots_person_order {order : SetOrder}
    (selected_data permuted_data : dict (dict (list string))) (meeting_length : Z) :
  NoDup (keys selected_data) ->
  Permutation selected_data permuted_data ->
  distinct_starts selected_data \/ order_by_contents order ->
  find_common_slots permuted_data meeting_length =
    find_common_slots selected_data meeting_length.
Proof.
  intros Hnd Hp Hor. rewrite !find_common_slots_unfold.
  rewrite <- (Permutation_length (keys_permuted _ _ Hp)).
  destruct (List.length (keys selected_data) <? 2)%nat eqn:Hlen; [reflexivity|].
  f_equal. apply map_each_ext. intros tag _.
  apply day_blocks_permuted; try assumption.
  intros ->. discriminate.
Qed.

Lemma find_common_slots_person_order_witness :
  @find_common_slots insertion_order three_persons_rotated 60 =
    @find_common_slots insertion_order three_persons 60.
Proof.
  apply (@find_common_slots_person_order insertion_order).
  - apply keys_NoDup_check. reflexivity.
  - apply (Permutation_app_comm (firstn 2 three_persons) (skipn 2 three_persons)).
  - left. apply distinct_startsb_spec. vm_compute. reflexivity.
Defined.

(** C8, as the code has it: for a subset of at least two persons the
    half-hour slots that the superset shares on a weekday are among those
    the subset shares, and are no more. *)
Theorem find_common_slots_subset {order : SetOrder}
    (superset subset : dict (dict (list string)))
    (common_super common_sub : dict (list string)) (tag : string) :
  NoDup (keys superset) -> NoDup (keys subset) ->
  incl subset superset -> (2 <= List.length subset)%nat ->
  find_common_slots superset 30 = Ok common_super ->
  find_common_slots subset 30 = Ok common_sub ->
  incl (get_default common_super tag []) (get_default common_sub tag [])
  /\ (List.length (get_default common_super tag [])
      <= List.length (get_default common_sub tag []))%nat.
Proof.
  intros Hnd Hnd' Hincl Hlen Hsup Hsub.
  unfold get_default at 1 3.
  destruct (get common_super tag) as [l_sup |] eqn:Hget;
    [| split; [intros x [] | cbn; lia]].
  destruct (find_common_slots_30_inv _ _ _ _ Hnd Hsup Hget) as (Hne & Htag & Hday).
  destruct (day_blocks_30_inv _ _ _ Hnd Hne Hday) as (Hall & _ & Hmem & Hnodup & _).
  assert (Hne' : subset <> []) by (intros ->; cbn in Hlen; lia).
  rewrite find_common_slots_unfold in Hsub. unfold keys in Hsub at 1.
  rewrite length_map in Hsub.
  destruct (Nat.ltb_spec (List.length subset) 2) as [Hlt | _]; [lia|].
  destruct (map_each (day_blocks subset 30) TAGE) as [vs |] eqn:Hvs; [|discriminate].
  assert (E : common_sub = combine TAGE vs) by (cbn [fmap bind] in Hsub; congruence).
  subst common_sub. clear Hsub.
  destruct (map_each_get_In _ _ _ tag Hvs Htag) as (l_sub & Hget' & Hday').
  unfold get_default. rewrite Hget'.
  destruct (day_blocks_30_inv _ _ _ Hnd' Hne' Hday') as (Hall' & _ & Hmem' & _).
  assert (Hi : incl l_sup l_sub).
  { intros x Hx. apply Hmem'. apply (seeded_intersection_members tag); try assumption.
    intros p days Hin.
    apply (proj1 (seeded_intersection_members tag superset x Hne Hall)
                 (proj1 (Hmem x) Hx) p days).
    now apply Hincl. }
  split; [exact Hi | now apply NoDup_incl_length].
Qed.

Lemma find_common_slots_subset_witness :
  incl ["12:30-13:00"; "13:00-13:30"] ["12:00-12:30"; "12:30-13:00"; "13:00-13:30"]
  /\ (List.length ["12:30-13:00"; "13:00-13:30"]
      <= List.length ["12:00-12:30"; "12:30-13:00"; "13:00-13:30"])%nat.
Proof.
  apply (@find_common_slots_subset insertion_order three_persons first_two
           (every_day ["12:30-13:00"; "13:00-13:30"])
           (every_day ["12:00-12:30"; "12:30-13:00"; "13:00-13:30"]) "Montag").
  - apply keys_NoDup_check. reflexivity.
  - apply keys_NoDup_check. reflexivity.
  - intros e He. cbv in He. cbv. tauto.
  - cbn. lia.
  - vm_compute. reflexivity.
  - vm_compute. reflexivity.
Defined.

(** C8 fails as stated.  A subset of one person gets the empty dictionary,
    so the superset of two has a slot on Monday that the subset lacks.  In
    60-minute mode three persons get the block "12:30-13:30", which the
    first two of them, who get "12:00-13:00", lack. *)
Lemma find_common_slots_single_subset :
  incl first_one first_two
  /\ (forall order : SetOrder,
         @find_common_slots order first_two 30 =
           Ok (every_day ["12:00-12:30"; "12:30-13:00"; "13:00-13:30"]))
  /\ (forall order : SetOrder, @find_common_slots order first_one 30 = Ok [])
  /\ ~ incl (get_default (every_day ["12:00-12:30"; "12:30-13:00"; "13:00-13:30"])
               "Montag" [])
            (get_default (@nil (string * list string)) "Montag" [])
  /\ incl first_two three_persons
  /\ (forall order : SetOrder,
         @find_common_slots order three_persons 60 = Ok (every_day ["12:30-13:30"]))
  /\ (forall order : SetOrder,
         @find_common_slots order first_two 60 = Ok (every_day ["12:00-13:00"])).
Proof.
  assert (Hfree : forall (order : SetOrder) d len r,
             forallb (fun k => (count_occ string_dec (keys d) k =? 1)%nat) (keys d) = true ->
             forallb (fun tag => distinct_startsb (seeded_intersection tag d)) TAGE = true ->
             @find_common_slots insertion_order d len = r ->
             @find_common_slots order d len = r).
  { intros order d len r Hk Hd <-. apply find_common_slots_order_free; [|assumption].
    now apply keys_NoDup_check. }
  split; [| split; [| split; [| split; [| split; [| split]]]]].
  - intros e He. cbv in He. cbv. tauto.
  - intros order. apply Hfree; vm_compute; reflexivity.
  - intros order. apply Hfree; vm_compute; reflexivity.
  - intros H. specialize (H "12:00-12:30"). cbn in H. tauto.
  - intros e He. cbv in He. cbv. tauto.
  - intros order. apply Hfree; vm_compute; reflexivity.
  - intros order. apply Hfree; vm_compute; reflexivity.
Qed.

(** ** Further properties of the grid and of the consolidation *)

Lemma digit_value_bounds c : is_digit c = true -> 0 <= digit_value c <= 9.
Proof.
  unfold is_digit, digit_value. intros H. apply andb_prop in H as [H1 H2].
  apply Nat.leb_le in H1, H2. lia.
Qed.

Lemma Ok_inj {A : Type} (a b : A) : Ok a = Ok b -> a = b.
Proof. now intros [= ->]. Qed.

Lemma Raise_inj {A : Type} (e e' : exn) : @Raise A e = Raise e' -> e' = e.
Proof. now intros [= ->]. Qed.

(** A time read by [strptime] lies within the day. *)
Lemma strptime_HM_range s t : strptime_HM s = Ok t -> 0 <= t < 1440.
Proof.
  unfold strptime_HM. intros H.
  repeat match type of H with
         | context [match ?x with _ => _ end] =>
             lazymatch x with
             | context [is_digit] =>
                 let E := fresh "E" in destruct x eqn:E; try discriminate
             | _ => destruct x; try discriminate
             end
         end;
    apply Ok_inj in H; subst t;
    repeat match goal with
           | E : _ && _ = true |- _ => apply andb_prop in E as [? ?]
           | E : is_digit _ = true |- _ => apply digit_value_bounds in E
           | E : (_ <=? _) = true |- _ => apply Z.leb_le in E
           end; lia.
Qed.

Lemma map_each_map {A B C : Type} (F : A -> result B) (h : C -> A) (g : C -> B) ks :
  (forall k, In k ks -> F (h k) = Ok (g k)) -> map_each F (map h ks) = Ok (map g ks).
Proof.
  induction ks as [| k ks IH]; intros H; cbn [map_each map]; [reflexivity|].
  rewrite (H k (or_introl eq_refl)), IH; [reflexivity|].
  intros y Hy. apply H. now right.
Qed.

(** What the generator returns, for any two times that [strptime] reads. *)
Lemma generate_halfhour_slots_progression start_str end_str s e :
  strptime_HM start_str = Ok s -> strptime_HM end_str = Ok e ->
  exists n : nat,
    generate_halfhour_slots start_str end_str =
      Ok (map halfhour_label (map (fun k => s + 30 * Z.of_nat k) (seq 0 n)))
    /\ (forall k, (k < n)%nat -> s + 30 * Z.of_nat k + 30 <= e)
    /\ 0 <= s /\ e < 1440.
Proof.
  intros Hs He.
  pose proof (strptime_HM_range _ _ Hs) as Rs.
  pose proof (strptime_HM_range _ _ He) as Re.
  destruct (Z_lt_dec e (s + 30)) as [Hshort | Hroom].
  - exists 0%nat. repeat split; try lia.
    unfold generate_halfhour_slots. rewrite Hs, He. cbn [bind].
    now rewrite generate_loop_stop.
  - assert (Hq : 0 <= (e - s) / 30) by (apply Z.div_pos; lia).
    pose proof (Z.div_mod (e - s) 30 ltac:(lia)) as Hdm.
    pose proof (Z.mod_pos_bound (e - s) 30 ltac:(lia)) as Hm.
    exists (Z.to_nat ((e - s) / 30)). repeat split; try lia.
    rewrite map_map.
    apply (generate_halfhour_slots_closed _ _ s e _ Hs He).
    rewrite Z2Nat.id by exact Hq. lia.
Qed.

Lemma nat_pair_ind (P : nat -> Prop) :
  P 0%nat -> P 1%nat -> (forall n, P n -> P (S (S n))) -> forall n, P n.
Proof.
  intros H0 H1 Hstep n.
  assert (H : P n /\ P (S n)) by (induction n as [| n [IH1 IH2]]; auto).
  apply H.
Qed.

Lemma paired_starts_progression :
  forall n s,
    paired_starts (map (fun k => s + 30 * Z.of_nat k) (seq 0 n)) =
      map (fun k => s + 60 * Z.of_nat k) (seq 0 (n / 2)).
Proof.
  induction n as [| | n IH] using nat_pair_ind; intros s.
  - reflexivity.
  - reflexivity.
  - replace (S (S n) / 2)%nat with (S (n / 2))
      by (change (S (S n)) with (1 * 2 + n)%nat; now rewrite Nat.div_add_l).
    cbn [seq map paired_starts].
    replace (s + 30 * Z.of_nat 1 =? s + 30 * Z.of_nat 0 + 30) with true
      by (symmetry; apply Z.eqb_eq; lia).
    replace (s + 30 * Z.of_nat 0) with (s + 60 * Z.of_nat 0) by lia.
    apply f_equal.
    assert (E1 : map (fun k => s + 30 * Z.of_nat k) (seq 2 n) =
                 map (fun k => s + 60 + 30 * Z.of_nat k) (seq 0 n)).
    { rewrite <- !seq_shift, !map_map. apply map_ext. intros k. lia. }
    assert (E2 : map (fun k => s + 60 * Z.of_nat k) (seq 1 (n / 2)) =
                 map (fun k => s + 60 + 60 * Z.of_nat k) (seq 0 (n / 2))).
    { rewrite <- seq_shift, map_map. apply map_ext. intros k. lia. }
    rewrite E1, E2. apply IH.
Qed.

(** Every label has a first piece; it has a second one when it has a dash. *)
Lemma split_second c x :
  occurs c x = true -> exists p q ps, split c x = p :: q :: ps.
Proof.
  unfold split. induction x as [| c' x IH]; cbn; [discriminate|].
  intros H. destruct (Ascii.eqb c' c) eqn:E.
  - destruct (split_pieces c x) as [p ps]. eauto.
  - cbn in H. destruct (IH H) as (p & q & ps & Hsplit).
    destruct (split_pieces c x) as [p' ps']. injection Hsplit as -> ->. eauto.
Qed.

Lemma split_first c x : exists p ps, split c x = p :: ps.
Proof. unfold split. destruct (split_pieces c x) as [p ps]. eauto. Qed.

(** X1: when the end time is less than half an hour after the start time,
    be it before the start, the generator returns the empty list and
    raises nothing. *)
Theorem generate_halfhour_slots_no_room (start_str end_str : string) (s e : Z) :
  strptime_HM start_str = Ok s -> strptime_HM end_str = Ok e -> e < s + 30 ->
  generate_halfhour_slots start_str end_str = Ok [].
Proof.
  intros Hs He Hshort. unfold generate_halfhour_slots.
  rewrite Hs, He. cbn [bind]. now rewrite generate_loop_stop.
Qed.

Lemma generate_halfhour_slots_no_room_witness :
  generate_halfhour_slots "21:30" "12:00" = Ok [].
Proof.
  apply (generate_halfhour_slots_no_room "21:30" "12:00" 1290 720);
    [reflexivity | reflexivity | lia].
Defined.

(** X2: [slot_to_minutes] reads every label of the generator; the label
    at position [k] starts [30 k] minutes after the start time, and its
    half hour is over by the end time. *)
Theorem generate_halfhour_slots_starts (start_str end_str : string) (s e : Z)
    (slots : list string) :
  strptime_HM start_str = Ok s -> strptime_HM end_str = Ok e ->
  generate_halfhour_slots start_str end_str = Ok slots ->
  map_each slot_to_minutes slots =
    Ok (map (fun k => s + 30 * Z.of_nat k) (seq 0 (List.length slots)))
  /\ forall k, (k < List.length slots)%nat -> s + 30 * Z.of_nat k + 30 <= e.
Proof.
  intros Hs He Hgen.
  destruct (generate_halfhour_slots_progression _ _ _ _ Hs He)
    as (n & Hn & Hfit & Hlo & Hhi).
  rewrite Hn in Hgen. apply Ok_inj in Hgen. subst slots.
  rewrite !List.length_map, List.length_seq. split; [|exact Hfit].
  rewrite map_map.
  apply (map_each_map slot_to_minutes
           (fun k => halfhour_label (s + 30 * Z.of_nat k))
           (fun k => s + 30 * Z.of_nat k)).
  intros k Hk. apply in_seq in Hk. specialize (Hfit k ltac:(lia)).
  unfold halfhour_label.
  exact (slot_to_minutes_range_label (s + 30 * Z.of_nat k) _ ltac:(lia)).
Qed.

Lemma generate_halfhour_slots_starts_witness :
  map_each slot_to_minutes ["12:00-12:30"; "12:30-13:00"; "13:00-13:30"] =
    Ok (map (fun k => 720 + 30 * Z.of_nat k) (seq 0 3))
  /\ forall k, (k < 3)%nat -> 720 + 30 * Z.of_nat k + 30 <= 815.
Proof.
  apply (generate_halfhour_slots_starts "12:00" "13:35" 720 815
           ["12:00-12:30"; "12:30-13:00"; "13:00-13:30"]);
    [reflexivity | reflexivity | vm_compute; reflexivity].
Defined.

(** X3: the consolidation of a generated grid of [n] labels is the list of
    the [n / 2] hours in a row from the start time; with an odd [n] the
    last half hour is left out. *)
Theorem find_hour_blocks_of_grid (start_str end_str : string) (s e : Z)
    (slots : list string) :
  strptime_HM start_str = Ok s -> strptime_HM end_str = Ok e ->
  generate_halfhour_slots start_str end_str = Ok slots ->
  find_hour_blocks slots =
    Ok (map (fun k => range_label (s + 60 * Z.of_nat k) (s + 60 * Z.of_nat k + 60))
            (seq 0 (List.length slots / 2))).
Proof.
  intros Hs He Hgen.
  destruct (generate_halfhour_slots_progression _ _ _ _ Hs He)
    as (n & Hn & Hfit & Hlo & Hhi).
  rewrite Hn in Hgen. apply Ok_inj in Hgen. subst slots.
  rewrite !List.length_map, List.length_seq.
  rewrite find_hour_blocks_halfhours.
  - rewrite paired_starts_progression, map_map. reflexivity.
  - apply Forall_forall. intros x Hx. apply in_map_iff in Hx as (k & <- & Hk).
    apply in_seq in Hk. specialize (Hfit k ltac:(lia)). unfold halfhour_start. lia.
Qed.

Lemma find_hour_blocks_of_grid_witness :
  find_hour_blocks ["12:00-12:30"; "12:30-13:00"; "13:00-13:30"] =
    Ok (map (fun k => range_label (720 + 60 * Z.of_nat k) (720 + 60 * Z.of_nat k + 60))
            (seq 0 (3 / 2))).
Proof.
  apply (find_hour_blocks_of_grid "12:00" "13:35" 720 815
           ["12:00-12:30"; "12:30-13:00"; "13:00-13:30"]);
    [reflexivity | reflexivity | vm_compute; reflexivity].
Defined.

(** X4: [slot_to_minutes] reads the text before the first dash only. *)
Theorem slot_to_minutes_before_dash (start_str rest : string) :
  occurs "-" start_str = false ->
  slot_to_minutes (start_str ++ "-" ++ rest) = slot_to_minutes start_str.
Proof.
  intros H. unfold slot_to_minutes.
  rewrite split_dash_first by exact H.
  now rewrite split_free.
Qed.

Lemma slot_to_minutes_before_dash_witness :
  slot_to_minutes ("12:00" ++ "-" ++ "no end at all") = slot_to_minutes "12:00".
Proof.
  apply (slot_to_minutes_before_dash "12:00" "no end at all"). reflexivity.
Defined.

(** X5: [slot_to_minutes] raises no other exception than [ValueError]. *)
Theorem slot_to_minutes_value_error (slot_label : string) (e : exn) :
  slot_to_minutes slot_label = Raise e -> e = ValueError.
Proof.
  intros H. destruct (readable_dec slot_label) as [[k Hk] | Hv].
  - rewrite Hk in H. discriminate.
  - rewrite Hv in H. now apply Raise_inj in H.
Qed.

(** X6: whatever the labels are, when the consolidation returns it has
    used two labels for each block: there are at most half as many blocks
    as labels. *)
Theorem find_hour_blocks_length (halfhour_list blocks : list string) :
  find_hour_blocks halfhour_list = Ok blocks ->
  (2 * List.length blocks <= List.length halfhour_list)%nat.
Proof.
  revert blocks.
  induction halfhour_list as [| x | a b rest IH1 IH2] using list_pair_ind; intros blocks H.
  - rewrite find_hour_blocks_nil in H. apply Ok_inj in H. subst. cbn. lia.
  - rewrite find_hour_blocks_one in H. apply Ok_inj in H. subst. cbn. lia.
  - rewrite find_hour_blocks_two in H.
    destruct (slot_to_minutes b) as [mb |]; [|discriminate].
    destruct (slot_to_minutes a) as [ma |]; [|discriminate].
    cbn [bind] in H. destruct (mb =? ma + 30).
    + destruct (index (split "-" a) 0) as [start_str |]; [|discriminate].
      destruct (index (split "-" b) 1) as [end_str |]; [|discriminate].
      cbn [bind] in H.
      destruct (find_hour_blocks rest) as [blocks' |]; [|discriminate].
      cbn in H. apply Ok_inj in H. subst blocks.
      specialize (IH1 blocks' eq_refl). cbn [List.length]. lia.
    + specialize (IH2 blocks H). cbn [List.length] in *. lia.
Qed.

Lemma find_hour_blocks_length_witness :
  (2 * List.length ["12:00-13:00"] <= List.length ["12:00-12:30"; "12:30-13:00"; "x"])%nat.
Proof.
  apply (find_hour_blocks_length ["12:00-12:30"; "12:30-13:00"; "x"] ["12:00-13:00"]).
  vm_compute. reflexivity.
Defined.

(** X7: on labels that all have a readable start and a dash, the
    consolidation raises nothing. *)
Theorem find_hour_blocks_total (halfhour_list : list string) :
  Forall (fun x => readable x /\ occurs "-" x = true) halfhour_list ->
  exists blocks, find_hour_blocks halfhour_list = Ok blocks.
Proof.
  induction halfhour_list as [| x | a b rest IH1 IH2] using list_pair_ind; intros H.
  - exists []. reflexivity.
  - exists []. apply find_hour_blocks_one.
  - inversion H as [| ? ? [[ka Ha] Da] H']; subst.
    inversion H' as [| ? ? [[kb Hb] Db] H'']; subst.
    rewrite find_hour_blocks_two, Hb, Ha. cbn [bind].
    destruct (kb =? ka + 30); [|now apply IH2].
    destruct (split_first "-" a) as (p & ps & ->).
    destruct (split_second "-" b Db) as (p' & q & ps' & ->).
    cbn [index nth_error bind].
    destruct (IH1 H'') as [blocks ->]. cbn. eauto.
Qed.

Lemma find_hour_blocks_total_witness :
  exists blocks, find_hour_blocks ["9:5-x"; "09:35-y"; "17:00-"] = Ok blocks.
Proof.
  apply (find_hour_blocks_total ["9:5-x"; "09:35-y"; "17:00-"]).
  repeat constructor; try (eexists; vm_compute; reflexivity).
Defined.

(** X8: when the second of two labels starts 30 minutes after the first
    and has no dash, the merge has no end to take from it and the
    consolidation raises [IndexError]. *)
Theorem find_hour_blocks_index_error (slot_a slot_b : string) (rest : list string)
    (minutes_a : Z) :
  slot_to_minutes slot_a = Ok minutes_a ->
  slot_to_minutes slot_b = Ok (minutes_a + 30) ->
  occurs "-" slot_b = false ->
  find_hour_blocks (slot_a :: slot_b :: rest) = Raise IndexError.
Proof.
  intros Ha Hb Hdash. rewrite find_hour_blocks_two, Hb, Ha. cbn [bind].
  rewrite Z.eqb_refl.
  destruct (split_first "-" slot_a) as (p & ps & ->).
  rewrite (split_free "-" slot_b Hdash). reflexivity.
Qed.

Lemma find_hour_blocks_index_error_witness :
  find_hour_blocks ["12:00-12:30"; "12:30"; "13:00-13:30"] = Raise IndexError.
Proof.
  apply (find_hour_blocks_index_error "12:00-12:30" "12:30" ["13:00-13:30"] 720);
    reflexivity.
Defined.

Lemma paired_starts_adjacent starts :
  StronglySorted no_overlap starts ->
  forall s, In s starts -> In (s + 30) starts ->
            In s (consumed (paired_starts starts))
            \/ In (s + 30) (consumed (paired_starts starts)).
Proof.
  unfold no_overlap.
  induction starts as [| x | a b rest IH1 IH2] using list_pair_ind; intros Hs s Hin Hin'.
  - destruct Hin.
  - destruct Hin as [<- | []]. destruct Hin' as [E | []]. lia.
  - inversion Hs as [| ? ? Hs' Ha]; subst.
    inversion Hs' as [| ? ? Hs'' Hb]; subst.
    rewrite Forall_forall in Ha, Hb.
    assert (Hab : a + 30 <= b) by (apply Ha; now left).
    cbn [paired_starts]. destruct (b =? a + 30) eqn:E.
    + apply Z.eqb_eq in E. cbn [consumed flat_map app].
      destruct Hin as [<- | [<- | Hin]]; [left; now left | left; right; left; lia |].
      assert (Hr : In (s + 30) rest).
      { specialize (Hb s Hin). destruct Hin' as [E' | [E' | H]]; [lia | lia | exact H]. }
      destruct (IH1 Hs'' s Hin Hr) as [H | H]; [left | right]; now do 2 right.
    + apply Z.eqb_neq in E.
      assert (Hin2 : In s (b :: rest)).
      { destruct Hin as [<- | H]; [|exact H]. exfalso.
        destruct Hin' as [E' | [E' | H]]; [lia | lia |].
        specialize (Hb (a + 30) H). lia. }
      assert (Hin2' : In (s + 30) (b :: rest)).
      { destruct Hin' as [E' | H]; [|exact H]. exfalso.
        specialize (Ha s Hin2). lia. }
      exact (IH2 Hs' s Hin2 Hin2').
Qed.

(** X9: for half-hour slots in ascending order that do not overlap, the
    consolidation never leaves both slots of an adjacent pair unused: when
    the input has the slots starting at [s] and at [s + 30], one of them at
    least is part of a block. *)
Theorem find_hour_blocks_adjacent_used (starts : list Z) :
  Forall halfhour_start starts -> Sorted no_overlap starts ->
  exists ps : list Z,
    find_hour_blocks (map halfhour_label starts) =
      Ok (map (fun s => range_label s (s + 60)) ps)
    /\ forall s, In s starts -> In (s + 30) starts ->
                 In s (consumed ps) \/ In (s + 30) (consumed ps).
Proof.
  intros Hvalid Hsorted. exists (paired_starts starts). split.
  - now apply find_hour_blocks_halfhours.
  - apply paired_starts_adjacent. apply Sorted_StronglySorted; [|exact Hsorted].
    unfold no_overlap. intros x y z. lia.
Qed.

Lemma find_hour_blocks_adjacent_used_witness :
  exists ps : list Z,
    find_hour_blocks (map halfhour_label [720; 750; 780; 900]) =
      Ok (map (fun s => range_label s (s + 60)) ps)
    /\ forall s, In s [720; 750; 780; 900] -> In (s + 30) [720; 750; 780; 900] ->
                 In s (consumed ps) \/ In (s + 30) (consumed ps).
Proof.
  apply (find_hour_blocks_adjacent_used [720; 750; 780; 900]).
  - repeat constructor; unfold halfhour_start; lia.
  - repeat constructor; unfold no_overlap; lia.
Defined.

(** ** Further properties of the intersection *)

Lemma day_blocks_has_day {order : SetOrder} selected_data meeting_length tag blocks :
  NoDup (keys selected_data) -> selected_data <> [] ->
  day_blocks selected_data meeting_length tag = Ok blocks ->
  forallb (has_day tag) selected_data = true.
Proof.
  intros Hnd Hne H. unfold day_blocks in H.
  rewrite common_halfhours_unfold in H by assumption.
  destruct (forallb (has_day tag) selected_data); [reflexivity | discriminate].
Qed.

Lemma day_blocks_30_cases {order : SetOrder} selected_data tag :
  NoDup (keys selected_data) -> selected_data <> [] ->
  day_blocks selected_data 30 tag =
    if forallb (has_day tag) selected_data
    then if Forall_readable_dec (seeded_intersection tag selected_data)
         then sorted slot_to_minutes (set_iter (seeded_intersection tag selected_data))
         else Raise ValueError
    else Raise KeyError.
Proof.
  intros Hnd Hne. unfold day_blocks.
  rewrite common_halfhours_unfold by assumption.
  destruct (forallb (has_day tag) selected_data); [|reflexivity].
  destruct (Forall_readable_dec (seeded_intersection tag selected_data)) as [Hr | Hr].
  - destruct (sorted slot_to_minutes _); reflexivity.
  - rewrite sorted_unreadable; [reflexivity|].
    intros H. apply Hr. eapply Permutation_Forall; [apply set_iter_perm | exact H].
Qed.

Lemma sorted_set_iter_total {order : SetOrder} s :
  Forall readable s -> exists l, sorted slot_to_minutes (set_iter s) = Ok l.
Proof.
  intros H. rewrite sorted_readable; [eauto|].
  eapply Permutation_Forall; [symmetry; apply set_iter_perm | exact H].
Qed.

Lemma map_each_raise {A B : Type} (F : A -> result B) e xs :
  (forall x, In x xs -> (exists y, F x = Ok y) \/ F x = Raise e) ->
  (exists x, In x xs /\ F x = Raise e) ->
  map_each F xs = Raise e.
Proof.
  induction xs as [| x xs IH]; intros Hall (x0 & Hin & Hx0); [destruct Hin|].
  cbn [map_each]. destruct (Hall x (or_introl eq_refl)) as [[y Hy] | Hy].
  - rewrite Hy. cbn [bind]. rewrite IH; [reflexivity | |].
    + intros x' Hx'. apply Hall. now right.
    + destruct Hin as [-> | Hin]; [congruence | eauto].
  - now rewrite Hy.
Qed.

Lemma map_each_bind {A B C : Type} (F : A -> result B) (H : B -> result C)
    (G : A -> result C) xs vs :
  map_each F xs = Ok vs -> (forall x, In x xs -> G x = bind (F x) H) ->
  map_each G xs = map_each H vs.
Proof.
  revert vs. induction xs as [| x xs IH]; intros vs Hvs HG; cbn [map_each] in *.
  - apply Ok_inj in Hvs. now subst.
  - rewrite (HG x (or_introl eq_refl)).
    destruct (F x) as [v |]; [|discriminate]. cbn [bind] in *.
    destruct (map_each F xs) as [vs' |]; [|discriminate]. cbn [bind] in Hvs.
    apply Ok_inj in Hvs. subst vs. cbn [map_each].
    rewrite (IH vs' eq_refl); [reflexivity|].
    intros x' Hx'. apply HG. now right.
Qed.

Lemma day_blocks_consolidates {order : SetOrder} selected_data meeting_length tag :
  meeting_length <> 30 ->
  day_blocks selected_data meeting_length tag =
    bind (day_blocks selected_data 30 tag) find_hour_blocks.
Proof.
  intros H. apply Z.eqb_neq in H. unfold day_blocks. rewrite H.
  change (30 =? 30) with true.
  destruct (common_halfhours selected_data (keys selected_data) tag); reflexivity.
Qed.

Lemma map_snd_combine {V : Type} (tags : list string) (vs : list V) :
  List.length vs = List.length tags -> map snd (combine tags vs) = vs.
Proof.
  revert vs. induction tags as [| t tags IH]; intros [| v vs]; cbn; try discriminate; auto.
  intros [= H]. f_equal. now apply IH.
Qed.

Lemma length_ge_2 {V : Type} (d : dict V) :
  (2 <= List.length d)%nat -> (List.length (keys d) <? 2)%nat = false /\ d <> [].
Proof.
  intros H. unfold keys. rewrite List.length_map. split.
  - apply Nat.ltb_ge. exact H.
  - intros ->. cbn in H. lia.
Qed.

(** X10: when [find_common_slots] returns for two persons or more,
    whatever the meeting length, the result has the five weekdays as its
    keys, in their order, and every person of the snapshot had an entry
    for every weekday. *)
Theorem find_common_slots_weekdays {order : SetOrder}
    (selected_data : dict (dict (list string))) (meeting_length : Z)
    (common_per_day : dict (list string)) :
  NoDup (keys selected_data) -> (2 <= List.length selected_data)%nat ->
  find_common_slots selected_data meeting_length = Ok common_per_day ->
  keys common_per_day = TAGE /\ all_weekdays selected_data.
Proof.
  intros Hnd Hlen H. destruct (length_ge_2 _ Hlen) as [Hlt Hne].
  rewrite find_common_slots_unfold, Hlt in H.
  destruct (map_each (day_blocks selected_data meeting_length) TAGE) as [vs |] eqn:Hvs;
    [|discriminate].
  cbn [fmap bind] in H. apply Ok_inj in H. subst common_per_day. split.
  - apply keys_combine. now apply map_each_length in Hvs.
  - intros p days tag Hin Htag.
    destruct (map_each_get_In _ _ _ tag Hvs Htag) as (v & _ & Hday).
    pose proof (day_blocks_has_day _ _ _ _ Hnd Hne Hday) as Hall.
    rewrite has_day_all in Hall. destruct (Hall p days Hin) as [slots ->]. discriminate.
Qed.

Lemma find_common_slots_weekdays_witness :
  keys (every_day ["12:00-13:00"]) = TAGE /\ all_weekdays two_free_hours.
Proof.
  apply (@find_common_slots_weekdays insertion_order two_free_hours 60
           (every_day ["12:00-13:00"])).
  - apply keys_NoDup_check. reflexivity.
  - cbn. lia.
  - vm_compute. reflexivity.
Defined.

(** X11: in 30-minute mode, for two persons or more with readable labels,
    a person without an entry for one of the weekdays makes the call
    raise [KeyError]. *)
Theorem find_common_slots_missing_weekday {order : SetOrder}
    (selected_data : dict (dict (list string))) (p : string)
    (days : dict (list string)) (tag : string) :
  NoDup (keys selected_data) -> (2 <= List.length selected_data)%nat ->
  Forall readable (all_labels selected_data) ->
  In (p, days) selected_data -> In tag TAGE -> get days tag = None ->
  find_common_slots selected_data 30 = Raise KeyError.
Proof.
  intros Hnd Hlen Hread Hin Htag Hnone. destruct (length_ge_2 _ Hlen) as [Hlt Hne].
  rewrite find_common_slots_unfold, Hlt.
  rewrite (map_each_raise _ KeyError); [reflexivity | |].
  - intros t _. rewrite day_blocks_30_cases by assumption.
    destruct (forallb (has_day t) selected_data) eqn:Hall; [left | now right].
    destruct (Forall_readable_dec (seeded_intersection t selected_data)) as [Hr | Hr].
    + now apply sorted_set_iter_total.
    + exfalso. apply Hr. apply Forall_forall. intros x Hx.
      rewrite Forall_forall in Hread. apply Hread.
      now apply (seeded_intersection_labels t).
  - exists tag. split; [exact Htag|].
    rewrite day_blocks_30_cases by assumption.
    destruct (forallb (has_day tag) selected_data) eqn:Hall; [|reflexivity].
    rewrite has_day_all in Hall. destruct (Hall p days Hin) as [slots E]. congruence.
Qed.

Lemma find_common_slots_missing_weekday_witness :
  @find_common_slots insertion_order
    [("Dodi", every_day ["12:00-12:30"]); ("Noah", [("Montag", ["12:00-12:30"])])] 30
  = Raise KeyError.
Proof.
  apply (@find_common_slots_missing_weekday insertion_order _
           "Noah" [("Montag", ["12:00-12:30"])] "Freitag").
  - apply keys_NoDup_check. reflexivity.
  - cbn. lia.
  - labels_readable.
  - cbn. tauto.
  - cbn. tauto.
  - reflexivity.
Defined.

(** X12: in 30-minute mode, for two persons or more who all have the five
    weekdays, the call returns when every label that all persons share on
    a weekday has a readable start, and raises [ValueError] when one has
    not; a label that some person lacks is never read. *)
Theorem find_common_slots_value_error {order : SetOrder}
    (selected_data : dict (dict (list string))) :
  NoDup (keys selected_data) -> (2 <= List.length selected_data)%nat ->
  all_weekdays selected_data ->
  ((forall tag x, In tag TAGE -> shared_on selected_data tag x -> readable x) ->
   exists common_per_day, find_common_slots selected_data 30 = Ok common_per_day)
  /\ ((exists tag x, In tag TAGE /\ shared_on selected_data tag x /\ ~ readable x) ->
      find_common_slots selected_data 30 = Raise ValueError).
Proof.
  intros Hnd Hlen Hdays. destruct (length_ge_2 _ Hlen) as [Hlt Hne].
  assert (Hall : forall tag, In tag TAGE -> forallb (has_day tag) selected_data = true).
  { intros tag Htag. apply has_day_all. intros p days Hin.
    specialize (Hdays p days tag Hin Htag).
    destruct (get days tag) as [slots |]; [eauto | congruence]. }
  rewrite find_common_slots_unfold, Hlt. split.
  - intros Hread.
    destruct (map_each_total (day_blocks selected_data 30) TAGE) as [vs ->];
      [| cbn; eauto].
    intros tag Htag. rewrite day_blocks_30_cases, (Hall tag Htag) by assumption.
    destruct (Forall_readable_dec (seeded_intersection tag selected_data)) as [Hr | Hr].
    + now apply sorted_set_iter_total.
    + exfalso. apply Hr. apply Forall_forall. intros x Hx.
      apply (Hread tag x Htag).
      exact (proj1 (seeded_intersection_members tag selected_data x Hne (Hall tag Htag)) Hx).
  - intros (tag & x & Htag & Hshared & Hbad).
    rewrite (map_each_raise _ ValueError); [reflexivity | |].
    + intros t Ht. rewrite day_blocks_30_cases, (Hall t Ht) by assumption.
      destruct (Forall_readable_dec (seeded_intersection t selected_data)) as [Hr | Hr];
        [left; now apply sorted_set_iter_total | now right].
    + exists tag. split; [exact Htag|].
      rewrite day_blocks_30_cases, (Hall tag Htag) by assumption.
      destruct (Forall_readable_dec (seeded_intersection tag selected_data)) as [Hr | Hr];
        [|reflexivity].
      exfalso. apply Hbad. rewrite Forall_forall in Hr. apply Hr.
      exact (proj2 (seeded_intersection_members tag selected_data x Hne (Hall tag Htag))
                   Hshared).
Qed.

Lemma find_common_slots_value_error_witness :
  exists common_per_day,
    @find_common_slots insertion_order
      [("Dodi", every_day ["mittags"; "12:00-12:30"]); ("Noah", every_day ["12:00-12:30"])]
      30 = Ok common_per_day.
Proof.
  apply (@find_common_slots_value_error insertion_order
           [("Dodi", every_day ["mittags"; "12:00-12:30"]);
            ("Noah", every_day ["12:00-12:30"])]).
  - apply keys_NoDup_check. reflexivity.
  - cbn. lia.
  - weekdays_present.
  - intros tag x Htag Hshared.
    destruct (Hshared "Noah" (every_day ["12:00-12:30"])) as (slots & Hget & Hx);
      [cbn; tauto|].
    apply get_In in Hget. cbv in Hget.
    repeat (destruct Hget as [Hget | Hget]; [injection Hget as <- <- | ]);
      try contradiction;
      destruct Hx as [<- | []]; eexists; vm_compute; reflexivity.
Defined.

(** X13: for a meeting length other than 30, the result is the result for
    30 with the list of every weekday consolidated by [find_hour_blocks],
    in the order of the weekdays; the first exception of a consolidation
    is the exception of the call. *)
Theorem find_common_slots_consolidates {order : SetOrder}
    (selected_data : dict (dict (list string))) (meeting_length : Z)
    (common_per_day : dict (list string)) :
  meeting_length <> 30 ->
  find_common_slots selected_data 30 = Ok common_per_day ->
  find_common_slots selected_data meeting_length =
    fmap (combine (keys common_per_day))
         (map_each find_hour_blocks (map snd common_per_day)).
Proof.
  intros Hlen H. rewrite find_common_slots_unfold in H |- *.
  destruct (List.length (keys selected_data) <? 2)%nat.
  - apply Ok_inj in H. subst. reflexivity.
  - destruct (map_each (day_blocks selected_data 30) TAGE) as [vs |] eqn:Hvs;
      [|discriminate].
    cbn [fmap bind] in H. apply Ok_inj in H. subst common_per_day.
    pose proof (map_each_length _ _ _ Hvs) as Hl.
    rewrite keys_combine, map_snd_combine by exact Hl.
    f_equal. apply (map_each_bind _ _ _ _ _ Hvs).
    intros tag _. now apply day_blocks_consolidates.
Qed.

Lemma find_common_slots_consolidates_witness :
  @find_common_slots insertion_order three_persons 60 =
    fmap (combine (keys (every_day ["12:30-13:00"; "13:00-13:30"])))
         (map_each find_hour_blocks (map snd (every_day ["12:30-13:00"; "13:00-13:30"]))).
Proof.
  apply (@find_common_slots_consolidates insertion_order three_persons 60).
  - lia.
  - vm_compute. reflexivity.
Defined.

Lemma grid_labels_starts (l : list string) :
  Forall grid_label l ->
  exists starts, l = map halfhour_label starts /\ Forall halfhour_start starts.
Proof.
  induction 1 as [| x l (s & Hs & ->) _ (starts & -> & Hstarts)].
  - exists []. split; [reflexivity | constructor].
  - exists (s :: starts). split; [reflexivity | now constructor].
Qed.

Lemma grid_label_readable x : grid_label x -> readable x.
Proof.
  intros (s & [Hlo Hhi] & ->). exists s. unfold halfhour_label.
  apply slot_to_minutes_range_label. lia.
Qed.

Lemma consumed_In ps s : In s ps -> In s (consumed ps) /\ In (s + 30) (consumed ps).
Proof.
  unfold consumed. intros H. split; apply in_flat_map; exists s; cbn; tauto.
Qed.

(** X14: for two persons or more who all have the five weekdays and only
    half-hour grid labels, the call with meeting length 60 raises nothing;
    every block of a weekday is an hour [s, s + 60) whose two half hours
    all persons have on that weekday. *)
Theorem find_common_slots_hours_of_grid {order : SetOrder}
    (selected_data : dict (dict (list string))) :
  NoDup (keys selected_data) -> (2 <= List.length selected_data)%nat ->
  all_weekdays selected_data -> Forall grid_label (all_labels selected_data) ->
  exists common_per_day,
    find_common_slots selected_data 60 = Ok common_per_day
    /\ keys common_per_day = TAGE
    /\ forall tag hour_blocks block,
         get common_per_day tag = Some hour_blocks -> In block hour_blocks ->
         exists s, block = range_label s (s + 60)
                   /\ shared_on selected_data tag (halfhour_label s)
                   /\ shared_on selected_data tag (halfhour_label (s + 30)).
Proof.
  intros Hnd Hlen Hdays Hgrid. destruct (length_ge_2 _ Hlen) as [Hlt Hne].
  assert (Hread : Forall readable (all_labels selected_data))
    by (eapply Forall_impl; [apply grid_label_readable | exact Hgrid]).
  assert (Hday : forall tag, In tag TAGE ->
            exists starts ps,
              day_blocks selected_data 60 tag =
                Ok (map (fun s => range_label s (s + 60)) ps)
              /\ (forall s, In s ps ->
                    shared_on selected_data tag (halfhour_label s)
                    /\ shared_on selected_data tag (halfhour_label (s + 30)))
              /\ ps = paired_starts starts).
  { intros tag Htag.
    destruct (day_blocks_30_total _ tag Hnd Hne Hdays Hread Htag) as [hl Hhl].
    destruct (day_blocks_30_inv _ _ _ Hnd Hne Hhl) as (Hall & _ & Hmem & _).
    assert (Hg : Forall grid_label hl).
    { apply Forall_forall. intros x Hx. rewrite Forall_forall in Hgrid. apply Hgrid.
      apply (seeded_intersection_labels tag); try assumption. now apply Hmem. }
    destruct (grid_labels_starts hl Hg) as (starts & -> & Hstarts).
    exists starts, (paired_starts starts).
    rewrite day_blocks_consolidates, Hhl by lia. cbn [bind].
    split; [now apply find_hour_blocks_halfhours|]. split; [|reflexivity].
    intros s Hs.
    pose proof (paired_starts_subsequence starts) as Hsub.
    destruct (consumed_In _ _ Hs) as [H1 H2].
    unfold shared_on. split.
    + apply (proj1 (seeded_intersection_members tag selected_data
                      (halfhour_label s) Hne Hall)).
      apply Hmem, in_map. eapply subsequence_In; eauto.
    + apply (proj1 (seeded_intersection_members tag selected_data
                      (halfhour_label (s + 30)) Hne Hall)).
      apply Hmem, in_map. eapply subsequence_In; eauto. }
  destruct (map_each_total (day_blocks selected_data 60) TAGE) as [vs Hvs].
  { intros tag Htag. destruct (Hday tag Htag) as (starts & ps & E & _). eauto. }
  exists (combine TAGE vs). rewrite find_common_slots_unfold, Hlt, Hvs.
  split; [reflexivity|]. split.
  - apply keys_combine. now apply map_each_length in Hvs.
  - intros tag hour_blocks block Hget Hin.
    destruct (map_each_get _ _ _ _ _ Hvs Hget) as [Htag Hblocks].
    destruct (Hday tag Htag) as (starts & ps & E & Hshared & _).
    rewrite E in Hblocks. apply Ok_inj in Hblocks. subst hour_blocks.
    apply in_map_iff in Hin as (s & <- & Hs).
    exists s. split; [reflexivity|]. now apply Hshared.
Qed.

Lemma find_common_slots_hours_of_grid_witness :
  exists common_per_day,
    @find_common_slots insertion_order three_persons 60 = Ok common_per_day
    /\ keys common_per_day = TAGE.
Proof.
  destruct (@find_common_slots_hours_of_grid insertion_order three_persons)
    as (common_per_day & Hres & Hkeys & _).
  - apply keys_NoDup_check. reflexivity.
  - cbn. lia.
  - weekdays_present.
  - apply Forall_forall. intros x Hx. cbv in Hx.
    repeat (destruct Hx as [Hx | Hx];
            [subst x;
             first [ exists 720; split; [unfold halfhour_start; lia | reflexivity]
                   | exists 750; split; [unfold halfhour_start; lia | reflexivity]
                   | exists 780; split; [unfold halfhour_start; lia | reflexivity] ] | ]).
    contradiction.
  - exists common_per_day. split; assumption.
Defined.

(** ** Dictionaries: reading and writing one key *)

Lemma get_map_key {V : Type} (f : string -> V) ks k :
  In k ks -> get (map (fun q => (q, f q)) ks) k = Some (f k).
Proof.
  induction ks as [| q ks IH]; cbn; [tauto|].
  intros H. destruct (String.eqb k q) eqn:E.
  - apply String.eqb_eq in E. now subst.
  - apply IH. destruct H as [-> | H]; [|exact H]. now rewrite String.eqb_refl in E.
Qed.

Lemma get_map_none {V : Type} (f : string -> V) ks k :
  ~ In k ks -> get (map (fun q => (q, f q)) ks) k = None.
Proof.
  induction ks as [| q ks IH]; cbn; [reflexivity|].
  intros H. destruct (String.eqb k q) eqn:E.
  - apply String.eqb_eq in E. subst. tauto.
  - apply IH. tauto.
Qed.

Lemma setitem_map_key {V : Type} (f g : string -> V) ks k v :
  NoDup ks -> In k ks -> g k = v -> (forall q, q <> k -> g q = f q) ->
  setitem (map (fun q => (q, f q)) ks) k v = map (fun q => (q, g q)) ks.
Proof.
  intros Hnd Hin Hk Hother. induction ks as [| q ks IH]; [destruct Hin|].
  inversion Hnd as [| ? ? Hnotin Hnd']; subst. cbn.
  destruct (String.eqb k q) eqn:E.
  - apply String.eqb_eq in E. subst q. f_equal.
    apply map_ext_in. intros q Hq. rewrite Hother; [reflexivity|]. now intros ->.
  - apply String.eqb_neq in E. rewrite (Hother q) by congruence. f_equal.
    apply IH; [assumption|]. destruct Hin as [-> | H]; [congruence | exact H].
Qed.

Lemma get_app_new {V : Type} (d : dict V) k v :
  ~ In k (keys d) -> get (d ++ [(k, v)])%list k = Some v.
Proof.
  induction d as [| [k' v'] d IH]; cbn; intros H.
  - now rewrite String.eqb_refl.
  - destruct (String.eqb k k') eqn:E; [apply String.eqb_eq in E; subst; tauto|].
    apply IH. tauto.
Qed.

Lemma setitem_app_last {V : Type} (d : dict V) k v v' :
  ~ In k (keys d) -> setitem (d ++ [(k, v)])%list k v' = (d ++ [(k, v')])%list.
Proof.
  induction d as [| [k' w] d IH]; cbn; intros H.
  - now rewrite String.eqb_refl.
  - destruct (String.eqb k k') eqn:E; [apply String.eqb_eq in E; subst; tauto|].
    f_equal. apply IH. tauto.
Qed.

Lemma keys_map_key {V : Type} (f : string -> V) ks :
  keys (map (fun q => (q, f q)) ks) = ks.
Proof. unfold keys. rewrite map_map. cbn. apply map_id. Qed.

(** ** The first loop of [load_data] *)

Lemma for_each_app {A S : Type} (body : S -> A -> result S) xs ys acc :
  for_each (xs ++ ys) body acc = bind (for_each xs body acc) (for_each ys body).
Proof.
  revert acc. induction xs as [| x xs IH]; intros acc; cbn; [reflexivity|].
  destruct (body acc x); cbn; [apply IH | reflexivity].
Qed.

Lemma set_add_all_app seen xs ys :
  set_add_all seen (xs ++ ys) = set_add_all (set_add_all seen xs) ys.
Proof. revert seen. induction xs as [| x xs IH]; intros seen; cbn; auto. Qed.

Lemma set_of_snoc xs x :
  set_of (xs ++ [x]) = if mem x (set_of xs) then set_of xs else (set_of xs ++ [x])%list.
Proof. unfold set_of. rewrite set_add_all_app. reflexivity. Qed.

Lemma slots_in_snoc rows p t p' t' x :
  slots_in (rows ++ [(p', t', x)]) p t =
    if String.eqb p' p && String.eqb t' t then (slots_in rows p t ++ [x])%list
    else slots_in rows p t.
Proof.
  unfold slots_in. rewrite filter_app, map_app. cbn.
  destruct (String.eqb p' p && String.eqb t' t); cbn; [reflexivity|].
  now rewrite app_nil_r.
Qed.

Lemma slots_in_no_person rows p t :
  ~ In p (persons_in rows) -> slots_in rows p t = [].
Proof.
  unfold persons_in, slots_in. rewrite set_of_In. intros H.
  induction rows as [| [[p' t'] x] rows IH]; [reflexivity|].
  cbn in *. destruct (String.eqb p' p) eqn:E.
  - apply String.eqb_eq in E. tauto.
  - cbn. apply IH. tauto.
Qed.

Lemma persons_in_snoc rows p t x :
  persons_in (rows ++ [(p, t, x)]) =
    if mem p (persons_in rows) then persons_in rows else (persons_in rows ++ [p])%list.
Proof. unfold persons_in. rewrite map_app. cbn. apply set_of_snoc. Qed.

(** One more row, read into the rows grouped so far. *)
Lemma keys_grouped rows : keys (grouped rows) = persons_in rows.
Proof. apply keys_map_key. Qed.

Lemma days_of_snoc rows p p' t x :
  mem t TAGE = true ->
  days_of (rows ++ [(p', t, x)]) p =
    if String.eqb p' p then setitem (days_of rows p) t (slots_in rows p t ++ [x])%list
    else days_of rows p.
Proof.
  intros Ht. apply mem_In in Ht. unfold days_of.
  destruct (String.eqb_spec p' p) as [-> | Hne].
  - symmetry. apply setitem_map_key; [apply TAGE_NoDup | exact Ht | |].
    + now rewrite slots_in_snoc, !String.eqb_refl.
    + intros q Hq. rewrite slots_in_snoc, String.eqb_refl. cbn [andb].
      destruct (String.eqb_spec t q); congruence.
  - apply map_ext. intros t'. rewrite slots_in_snoc.
    destruct (String.eqb_spec p' p); [contradiction | reflexivity].
Qed.

Lemma days_of_no_rows rows p :
  ~ In p (persons_in rows) -> days_of rows p = map (fun t => (t, [])) TAGE.
Proof.
  intros H. unfold days_of. apply map_ext. intros t.
  now rewrite slots_in_no_person.
Qed.

Lemma getitem_days_of rows p t :
  getitem (days_of rows p) t =
    if mem t TAGE then Ok (slots_in rows p t) else Raise KeyError.
Proof.
  unfold getitem, days_of. destruct (mem t TAGE) eqn:E.
  - apply mem_In in E. now rewrite (get_map_key (fun t => slots_in rows p t)).
  - rewrite (get_map_none (fun t => slots_in rows p t)); [reflexivity|].
    intros H. apply mem_In in H. congruence.
Qed.

Lemma load_row_grouped rows p t x :
  load_row (grouped rows) (p, t, x) =
    if mem t TAGE then Ok (grouped (rows ++ [(p, t, x)])) else Raise KeyError.
Proof.
  unfold load_row. cbn [fst snd]. cbv zeta. rewrite keys_grouped.
  pose proof (set_of_NoDup (map (fun r => fst (fst r)) rows)) as Hnd.
  fold (persons_in rows) in Hnd.
  destruct (mem p (persons_in rows)) eqn:Hp.
  - apply mem_In in Hp. unfold getitem at 1. unfold grouped at 1.
    rewrite (get_map_key (days_of rows) _ _ Hp). cbn [bind].
    rewrite getitem_days_of. destruct (mem t TAGE) eqn:Ht; [|reflexivity].
    cbn [bind]. f_equal. unfold grouped. rewrite persons_in_snoc.
    rewrite (proj2 (mem_In p (persons_in rows)) Hp).
    apply setitem_map_key; try assumption.
    + now rewrite days_of_snoc, String.eqb_refl.
    + intros q Hq. rewrite days_of_snoc by exact Ht.
      destruct (String.eqb_spec p q); [congruence | reflexivity].
  - assert (Hnew : ~ In p (persons_in rows)).
    { intros H. apply mem_In in H. congruence. }
    rewrite setitem_new by (now rewrite keys_grouped).
    unfold getitem at 1. rewrite get_app_new by (now rewrite keys_grouped).
    cbn [bind]. rewrite <- (days_of_no_rows rows p Hnew), getitem_days_of.
    destruct (mem t TAGE) eqn:Ht; [|reflexivity].
    cbn [bind]. rewrite setitem_app_last by (now rewrite keys_grouped). f_equal.
    unfold grouped. rewrite persons_in_snoc, Hp, map_app. cbn [map]. f_equal.
    + apply map_ext_in. intros q Hq. f_equal. rewrite days_of_snoc by exact Ht.
      destruct (String.eqb_spec p q); [subst; contradiction | reflexivity].
    + now rewrite days_of_snoc, String.eqb_refl.
Qed.

Lemma load_rows_grouped rows :
  for_each rows load_row [] =
    if forallb (fun r => mem (snd (fst r)) TAGE) rows
    then Ok (grouped rows) else Raise KeyError.
Proof.
  induction rows as [| [[p t] x] rows IH] using rev_ind; [reflexivity|].
  rewrite for_each_app, IH, forallb_app. cbn [forallb fst snd].
  destruct (forallb (fun r => mem (snd (fst r)) TAGE) rows); cbn [bind andb for_each];
    [|reflexivity].
  rewrite load_row_grouped. destruct (mem t TAGE); reflexivity.
Qed.

(** ** The second loop of [load_data] *)

Lemma for_each_ext {A S : Type} (body body' : S -> A -> result S) xs acc :
  (forall acc x, body acc x = body' acc x) ->
  for_each xs body acc = for_each xs body' acc.
Proof.
  intros H. revert acc. induction xs as [| x xs IH]; intros acc; cbn; [reflexivity|].
  rewrite H. destruct (body' acc x); cbn; auto.
Qed.

Lemma get_app_skip {V : Type} (d d' : dict V) k :
  ~ In k (keys d) -> get (d ++ d')%list k = get d' k.
Proof.
  induction d as [| [k' v'] d IH]; cbn; intros H; [reflexivity|].
  destruct (String.eqb k k') eqn:E; [apply String.eqb_eq in E; subst; tauto|].
  apply IH. tauto.
Qed.

Lemma setitem_app_skip {V : Type} (d d' : dict V) k v :
  ~ In k (keys d) -> setitem (d ++ d')%list k v = (d ++ setitem d' k v)%list.
Proof.
  induction d as [| [k' v'] d IH]; cbn; intros H; [reflexivity|].
  destruct (String.eqb k k') eqn:E; [apply String.eqb_eq in E; subst; tauto|].
  f_equal. apply IH. tauto.
Qed.

(** A loop over the keys of a dictionary that replaces every value by
    what [F] makes of it. *)
Lemma for_each_update {V : Type} (F : V -> result V) :
  forall todo done,
    NoDup (keys (done ++ todo)%list) ->
    for_each (keys todo)
      (fun d k => v <- getitem d k ;; v' <- F v ;; Ok (setitem d k v'))
      (done ++ todo)%list
    = fmap (fun vs => (done ++ combine (keys todo) vs)%list) (map_each F (map snd todo)).
Proof.
  induction todo as [| [k v] todo IH]; intros done Hnd.
  - cbn. reflexivity.
  - assert (Hk : ~ In k (keys done)).
    { unfold keys in *. rewrite map_app in Hnd. cbn in Hnd.
      apply NoDup_remove_2 in Hnd. intros H. apply Hnd. apply in_app_iff. now left. }
    cbn [keys map fst snd for_each map_each].
    unfold getitem at 1. rewrite get_app_skip by exact Hk. cbn [get].
    rewrite String.eqb_refl. cbn [bind].
    destruct (F v) as [v' | e]; cbn [bind fmap]; [|reflexivity].
    rewrite setitem_app_skip by exact Hk. cbn [setitem]. rewrite String.eqb_refl.
    change (done ++ (k, v') :: todo)%list with (done ++ [(k, v')] ++ todo)%list.
    rewrite app_assoc. change (map fst todo) with (keys todo).
    rewrite IH.
    + destruct (map_each F (map snd todo)) as [vs | e]; cbn; [|reflexivity].
      now rewrite <- app_assoc.
    + unfold keys in *. rewrite !map_app in *. cbn in *.
      now rewrite <- app_assoc.
Qed.

Lemma for_each_update_all {V : Type} (F : V -> result V) (d : dict V) :
  NoDup (keys d) ->
  for_each (keys d)
    (fun d k => v <- getitem d k ;; v' <- F v ;; Ok (setitem d k v')) d
  = fmap (combine (keys d)) (map_each F (map snd d)).
Proof. intros H. exact (for_each_update F d [] H). Qed.

Lemma setitem_same {V : Type} (d : dict V) k v : get d k = Some v -> setitem d k v = d.
Proof.
  induction d as [| [k' v'] d IH]; cbn; [discriminate|].
  destruct (String.eqb k k') eqn:E.
  - apply String.eqb_eq in E. now intros [= ->]; subst.
  - intros H. f_equal. auto.
Qed.

Lemma get_setitem {V : Type} (d : dict V) k v : get (setitem d k v) k = Some v.
Proof.
  induction d as [| [k' v'] d IH]; cbn.
  - now rewrite String.eqb_refl.
  - destruct (String.eqb k k') eqn:E; cbn; [now rewrite String.eqb_refl|].
    now rewrite E.
Qed.

Lemma setitem_setitem {V : Type} (d : dict V) k v v' :
  setitem (setitem d k v) k v' = setitem d k v'.
Proof.
  induction d as [| [k' w] d IH]; cbn.
  - now rewrite String.eqb_refl.
  - destruct (String.eqb k k') eqn:E; cbn; [now rewrite String.eqb_refl|].
    rewrite E. now f_equal.
Qed.

(** The loop over the weekdays of one person works on that person's days. *)
Lemma sort_day_loop p : forall tags data days,
  get data p = Some days ->
  for_each tags (sort_day p) data =
    (days' <- for_each tags
                (fun days t =>
                   slots <- getitem days t ;;
                   sorted_slots <- sorted slot_to_minutes slots ;;
                   Ok (setitem days t sorted_slots))
                days ;;
     Ok (setitem data p days')).
Proof.
  induction tags as [| t tags IH]; intros data days Hget; cbn [for_each bind].
  - now rewrite setitem_same.
  - unfold sort_day at 1, getitem at 1. rewrite Hget. cbn [bind].
    destruct (getitem days t) as [slots |]; cbn [bind]; [|reflexivity].
    destruct (sorted slot_to_minutes slots) as [sorted_slots |]; cbn [bind];
      [|reflexivity].
    rewrite (IH _ (setitem days t sorted_slots)) by apply get_setitem.
    destruct (for_each tags _ (setitem days t sorted_slots)); cbn [bind]; [|reflexivity].
    now rewrite setitem_setitem.
Qed.

Lemma sort_person p data :
  for_each TAGE (sort_day p) data =
    (days <- getitem data p ;; days' <- sort_days days ;; Ok (setitem data p days')).
Proof.
  unfold getitem. destruct (get data p) as [days |] eqn:E; cbn [bind].
  - now apply sort_day_loop.
  - unfold TAGE. cbn [for_each]. unfold sort_day at 1, getitem. now rewrite E.
Qed.

Lemma combine_keys_map {V W : Type} (g : V -> W) (d : dict V) :
  combine (keys d) (map (fun e => g (snd e)) d) = map (fun e => (fst e, g (snd e))) d.
Proof.
  induction d as [| [k v] d IH]; cbn; [reflexivity|]. f_equal. exact IH.
Qed.

Lemma sorted_sort_by_start l :
  Forall readable l -> sorted slot_to_minutes l = Ok (sort_by_start l).
Proof. apply sorted_readable. Qed.

(** The sort of one person's days. *)
Lemma sort_days_closed days :
  keys days = TAGE ->
  sort_days days =
    if Forall_readable_dec (flat_map snd days)
    then Ok (map (fun d => (fst d, sort_by_start (snd d))) days)
    else Raise ValueError.
Proof.
  intros Hkeys. unfold sort_days. rewrite <- Hkeys.
  rewrite (for_each_update_all (sorted slot_to_minutes) days)
    by (rewrite Hkeys; apply TAGE_NoDup).
  destruct (Forall_readable_dec (flat_map snd days)) as [Hr | Hr].
  - rewrite (map_each_map _ snd (fun d => sort_by_start (snd d)) days).
    + cbn [fmap bind]. f_equal. apply combine_keys_map.
    + intros d Hd. apply sorted_sort_by_start. apply Forall_forall. intros x Hx.
      rewrite Forall_forall in Hr. apply Hr. apply in_flat_map. eauto.
  - rewrite (map_each_raise _ ValueError); [reflexivity | |].
    + intros l _. destruct (Forall_readable_dec l) as [H | H].
      * left. rewrite sorted_sort_by_start; eauto.
      * right. now apply sorted_unreadable.
    + assert (He : Exists (fun d => ~ Forall readable (snd d)) days).
      { apply neg_Forall_Exists_neg.
        - intros d. apply Forall_readable_dec.
        - intros Hall. apply Hr. apply Forall_forall. intros x Hx.
          apply in_flat_map in Hx as (d & Hd & Hx). rewrite Forall_forall in Hall.
          specialize (Hall d Hd). rewrite Forall_forall in Hall. now apply Hall. }
      apply Exists_exists in He as (d & Hd & Hbad).
      exists (snd d). split; [now apply in_map | now apply sorted_unreadable].
Qed.

(** ** [load_data] in closed form *)

Lemma sort_all_closed data :
  NoDup (keys data) -> (forall p days, In (p, days) data -> keys days = TAGE) ->
  for_each (keys data) (fun data p => for_each TAGE (sort_day p) data) data =
    if Forall_readable_dec (all_labels data)
    then Ok (sorted_snapshot data) else Raise ValueError.
Proof.
  intros Hnd Hdays.
  rewrite (for_each_ext _
             (fun d k => v <- getitem d k ;; v' <- sort_days v ;; Ok (setitem d k v')))
    by (intros; apply sort_person).
  rewrite for_each_update_all by exact Hnd.
  destruct (Forall_readable_dec (all_labels data)) as [Hr | Hr].
  - rewrite (map_each_map _ snd
               (fun e => map (fun d => (fst d, sort_by_start (snd d))) (snd e)) data).
    + cbn [fmap bind]. f_equal. apply combine_keys_map.
    + intros [p days] Hin. cbn [snd]. rewrite sort_days_closed by (eapply Hdays; eauto).
      destruct (Forall_readable_dec (flat_map snd days)) as [H | H]; [reflexivity|].
      exfalso. apply H. apply Forall_forall. intros x Hx.
      rewrite Forall_forall in Hr. apply Hr. unfold all_labels. apply in_flat_map.
      exists (p, days). auto.
  - rewrite (map_each_raise _ ValueError); [reflexivity | |].
    + intros days Hin. apply in_map_iff in Hin as ([p days'] & <- & Hin). cbn [snd].
      rewrite sort_days_closed by (eapply Hdays; eauto).
      destruct (Forall_readable_dec (flat_map snd days')); [left; eauto | now right].
    + assert (He : Exists (fun e => ~ Forall readable (flat_map snd (snd e))) data).
      { apply neg_Forall_Exists_neg.
        - intros e. apply Forall_readable_dec.
        - intros Hall. apply Hr. apply Forall_forall. intros x Hx.
          unfold all_labels in Hx. apply in_flat_map in Hx as (e & He & Hx).
          rewrite Forall_forall in Hall. specialize (Hall e He).
          rewrite Forall_forall in Hall. now apply Hall. }
      apply Exists_exists in He as ([p days] & Hin & Hbad). cbn [snd] in Hbad.
      exists days. split; [now apply (in_map snd) in Hin|].
      rewrite sort_days_closed by (eapply Hdays; eauto).
      destruct (Forall_readable_dec (flat_map snd days)); [contradiction | reflexivity].
Qed.

Lemma grouped_NoDup rows : NoDup (keys (grouped rows)).
Proof. rewrite keys_grouped. apply set_of_NoDup. Qed.

Lemma grouped_days rows p days : In (p, days) (grouped rows) -> keys days = TAGE.
Proof.
  unfold grouped. intros H. apply in_map_iff in H as (q & [= <- <-] & _).
  apply keys_map_key.
Qed.

Lemma slots_in_In rows p t x : In x (slots_in rows p t) <-> In (p, t, x) rows.
Proof.
  unfold slots_in. rewrite in_map_iff. split.
  - intros ([[p' t'] x'] & <- & H). apply filter_In in H as [H E]. cbn in *.
    apply andb_prop in E as [E1 E2].
    apply String.eqb_eq in E1, E2. now subst.
  - intros H. exists (p, t, x). split; [reflexivity|]. apply filter_In.
    split; [exact H|]. cbn. now rewrite !String.eqb_refl.
Qed.

Lemma persons_in_In rows p : In p (persons_in rows) <-> exists t x, In (p, t, x) rows.
Proof.
  unfold persons_in. rewrite set_of_In, in_map_iff. split.
  - intros ([[p' t] x] & <- & H). eauto.
  - intros (t & x & H). exists (p, t, x). auto.
Qed.

Lemma all_labels_grouped rows x :
  In x (all_labels (grouped rows)) <-> exists p t, In (p, t, x) rows /\ In t TAGE.
Proof.
  unfold all_labels, grouped. rewrite in_flat_map. split.
  - intros (e & He & Hx). apply in_map_iff in He as (p & <- & Hp). cbn [snd] in Hx.
    apply in_flat_map in Hx as (d & Hd & Hx). unfold days_of in Hd.
    apply in_map_iff in Hd as (t & <- & Ht). cbn [snd] in Hx.
    apply slots_in_In in Hx. eauto.
  - intros (p & t & Hrow & Ht). exists (p, days_of rows p). split.
    + apply in_map_iff. exists p. split; [reflexivity|]. apply persons_in_In. eauto.
    + cbn [snd]. apply in_flat_map. exists (t, slots_in rows p t). split.
      * unfold days_of. apply in_map_iff. eauto.
      * cbn [snd]. now apply slots_in_In.
Qed.

Lemma load_data_closed conn :
  load_data conn =
    if forallb (fun r => mem (snd (fst r)) TAGE) (sql_select conn)
    then if Forall_readable_dec (map snd (sql_select conn))
         then Ok (sorted_snapshot (grouped (sql_select conn)))
         else Raise ValueError
    else Raise KeyError.
Proof.
  unfold load_data. cbv zeta. rewrite load_rows_grouped.
  destruct (forallb (fun r => mem (snd (fst r)) TAGE) (sql_select conn)) eqn:Htags;
    cbn [bind]; [|reflexivity].
  rewrite sort_all_closed by (apply grouped_NoDup || apply grouped_days).
  rewrite forallb_forall in Htags.
  destruct (Forall_readable_dec (all_labels (grouped (sql_select conn)))) as [H | H];
    destruct (Forall_readable_dec (map snd (sql_select conn))) as [H' | H'];
    try reflexivity; exfalso.
  - apply H'. apply Forall_forall. intros x Hx.
    apply in_map_iff in Hx as ([[p t] x'] & <- & Hrow). cbn [snd].
    rewrite Forall_forall in H. apply H. apply all_labels_grouped.
    exists p, t. split; [exact Hrow|]. apply mem_In. exact (Htags _ Hrow).
  - apply H. apply Forall_forall. intros x Hx.
    apply all_labels_grouped in Hx as (p & t & Hrow & _).
    rewrite Forall_forall in H'. apply H'. now apply (in_map snd) in Hrow.
Qed.

(** ** What [load_data] returns *)

Lemma load_data_inv conn data :
  load_data conn = Ok data ->
  data = sorted_snapshot (grouped (sql_select conn))
  /\ Forall readable (map snd (sql_select conn))
  /\ forall p t x, In (p, t, x) (sql_select conn) -> In t TAGE.
Proof.
  rewrite load_data_closed. intros H.
  destruct (forallb _ (sql_select conn)) eqn:Htags; [|discriminate].
  destruct (Forall_readable_dec (map snd (sql_select conn))) as [Hr |]; [|discriminate].
  apply Ok_inj in H. subst data. repeat split; [exact Hr|].
  intros p t x Hrow. rewrite forallb_forall in Htags. apply mem_In.
  exact (Htags _ Hrow).
Qed.

Lemma keys_sorted_snapshot data : keys (sorted_snapshot data) = keys data.
Proof. unfold keys, sorted_snapshot. rewrite map_map. reflexivity. Qed.

Lemma sorted_snapshot_entry rows p days :
  In (p, days) (sorted_snapshot (grouped rows)) ->
  In p (persons_in rows)
  /\ days = map (fun t => (t, sort_by_start (slots_in rows p t))) TAGE.
Proof.
  unfold sorted_snapshot, grouped. rewrite map_map. cbn [fst snd].
  intros H. apply in_map_iff in H as (q & [= <- <-] & Hq). split; [exact Hq|].
  reflexivity.
Qed.

Lemma sorted_snapshot_slots rows p days t slots :
  In (p, days) (sorted_snapshot (grouped rows)) -> get days t = Some slots ->
  In t TAGE /\ slots = sort_by_start (slots_in rows p t).
Proof.
  intros Hin Hget. apply sorted_snapshot_entry in Hin as [_ ->].
  destruct (in_dec string_dec t TAGE) as [Ht | Ht].
  - rewrite (get_map_key (fun t => sort_by_start (slots_in rows p t)) _ _ Ht) in Hget.
    injection Hget as <-. auto.
  - rewrite (get_map_none (fun t => sort_by_start (slots_in rows p t)) _ _ Ht) in Hget.
    discriminate.
Qed.

Lemma sort_by_start_perm l : Permutation (sort_by_start l) l.
Proof.
  unfold sort_by_start. rewrite sort_keyed_perm, map_map. cbn. now rewrite map_id.
Qed.

Lemma sort_by_start_sorted l :
  Forall readable l -> StronglySorted starts_le (sort_by_start l).
Proof.
  intros H. apply (sorted_spec l). now apply sorted_sort_by_start.
Qed.

Lemma slots_in_readable rows p t :
  Forall readable (map snd rows) -> Forall readable (slots_in rows p t).
Proof.
  intros H. apply Forall_forall. intros x Hx. apply slots_in_In in Hx.
  rewrite Forall_forall in H. apply H. now apply (in_map snd) in Hx.
Qed.

(** The snapshot that [load_data] returns is fit for [find_common_slots]. *)
Lemma load_data_well_formed conn data :
  load_data conn = Ok data ->
  NoDup (keys data)
  /\ (forall p days, In (p, days) data -> keys days = TAGE)
  /\ Forall readable (all_labels data)
  /\ (forall p days t slots,
         In (p, days) data -> get days t = Some slots ->
         StronglySorted starts_le slots).
Proof.
  intros H. destruct (load_data_inv conn data H) as (-> & Hr & Htags).
  split; [| split; [| split]].
  - rewrite keys_sorted_snapshot. apply grouped_NoDup.
  - intros p days Hin. apply sorted_snapshot_entry in Hin as [_ ->].
    apply (keys_map_key (fun t => sort_by_start (slots_in (sql_select conn) p t))).
  - apply Forall_forall. intros x Hx. unfold all_labels in Hx.
    apply in_flat_map in Hx as ([p days] & Hin & Hx). cbn [snd] in Hx.
    apply in_flat_map in Hx as ([t slots] & Hd & Hx). cbn [snd] in Hx.
    apply sorted_snapshot_entry in Hin as [_ ->].
    apply in_map_iff in Hd as (t' & [= <- <-] & _).
    assert (Hx' : In x (slots_in (sql_select conn) p t'))
      by (eapply Permutation_in; [apply sort_by_start_perm | exact Hx]).
    pose proof (slots_in_readable _ p t' Hr) as Hall.
    rewrite Forall_forall in Hall. now apply Hall.
  - intros p days t slots Hin Hget.
    destruct (sorted_snapshot_slots _ _ _ _ _ Hin Hget) as [_ ->].
    now apply sort_by_start_sorted, slots_in_readable.
Qed.

Lemma get_key_some {V : Type} (d : dict V) k : In k (keys d) -> get d k <> None.
Proof.
  induction d as [| [k' v'] d IH]; cbn; [tauto|].
  intros H. destruct (String.eqb k k') eqn:E; [discriminate|].
  apply IH. destruct H as [-> | H]; [|exact H]. now rewrite String.eqb_refl in E.
Qed.

Lemma keys_TAGE_all_weekdays data :
  (forall p days, In (p, days) data -> keys days = TAGE) -> all_weekdays data.
Proof.
  intros H p days tag Hin Htag. apply get_key_some. now rewrite (H p days Hin).
Qed.

(** X15: a snapshot that [load_data] returns has every person once; every
    person has the five weekdays, in their order, as keys; every label has
    a readable start, and the slots of every weekday are in ascending
    order of start. *)
Theorem load_data_snapshot (conn : database) (data : dict (dict (list string))) :
  load_data conn = Ok data ->
  NoDup (keys data)
  /\ (forall p days, In (p, days) data -> keys days = TAGE)
  /\ Forall readable (all_labels data)
  /\ (forall p days t slots,
         In (p, days) data -> get days t = Some slots ->
         StronglySorted starts_le slots).
Proof.
  intros H. pose proof (load_data_well_formed conn data H) as (H1 & H2 & H3 & H4).
  repeat split; assumption.
Qed.

(** X16: the persons of the snapshot are the persons of the table, in the
    order of their first row; the slots of a person on a weekday are the
    slots of that person's rows for that weekday, none lost and none
    added, sorted by start with the order of the rows kept between equal
    starts. *)
Theorem load_data_rows (conn : database) (data : dict (dict (list string))) :
  load_data conn = Ok data ->
  keys data = persons_in (sql_select conn)
  /\ forall p days t slots,
       In (p, days) data -> get days t = Some slots ->
       slots = sort_by_start (slots_in (sql_select conn) p t)
       /\ Permutation slots (slots_in (sql_select conn) p t).
Proof.
  intros H. destruct (load_data_inv conn data H) as (-> & Hr & Htags). split.
  - now rewrite keys_sorted_snapshot, keys_grouped.
  - intros p days t slots Hin Hget.
    destruct (sorted_snapshot_slots _ _ _ _ _ Hin Hget) as [_ ->].
    split; [reflexivity | apply sort_by_start_perm].
Qed.

(** X17: [load_data] raises [KeyError] when a row has a tag that is no
    weekday; it raises [ValueError] when all tags are weekdays and a row
    has a slot without readable start; otherwise it returns a snapshot. *)
Theorem load_data_errors (conn : database) :
  ((exists r, In r (verfuegbarkeit conn) /\ ~ In (row_tag r) TAGE) ->
   load_data conn = Raise KeyError)
  /\ ((forall r, In r (verfuegbarkeit conn) -> In (row_tag r) TAGE) ->
      (exists r, In r (verfuegbarkeit conn) /\ ~ readable (row_slot r)) ->
      load_data conn = Raise ValueError)
  /\ ((forall r, In r (verfuegbarkeit conn) ->
                 In (row_tag r) TAGE /\ readable (row_slot r)) ->
      exists data, load_data conn = Ok data).
Proof.
  rewrite load_data_closed. unfold sql_select.
  assert (Htags : (forall r, In r (verfuegbarkeit conn) -> In (row_tag r) TAGE) ->
                  forallb (fun r => mem (snd (fst r)) TAGE)
                    (map (fun r => (row_person r, row_tag r, row_slot r))
                         (verfuegbarkeit conn)) = true).
  { intros H. rewrite forallb_forall. intros x Hx.
    apply in_map_iff in Hx as (r & <- & Hr). cbn [fst snd].
    apply (proj2 (mem_In _ _)). now apply H. }
  split; [| split].
  - intros (r & Hr & Hbad).
    destruct (forallb _ _) eqn:E; [|reflexivity]. exfalso. apply Hbad.
    rewrite forallb_forall in E. apply (proj1 (mem_In _ _)).
    apply (E (row_person r, row_tag r, row_slot r)).
    apply in_map_iff. eauto.
  - intros Hall (r & Hr & Hbad). rewrite (Htags Hall).
    destruct (Forall_readable_dec _) as [H |]; [|reflexivity].
    exfalso. apply Hbad. rewrite Forall_forall in H. apply H.
    rewrite map_map. cbn. apply in_map_iff. eauto.
  - intros Hall. rewrite (Htags (fun r Hr => proj1 (Hall r Hr))).
    destruct (Forall_readable_dec _) as [| H]; [eauto|].
    exfalso. apply H. apply Forall_forall. intros x Hx.
    rewrite map_map in Hx. cbn in Hx. apply in_map_iff in Hx as (r & <- & Hr).
    now apply Hall.
Qed.

Lemma load_data_snapshot_witness :
  NoDup (keys (sorted_snapshot (grouped (sql_select two_saved))))
  /\ (forall p days, (In (p, days) (sorted_snapshot (grouped (sql_select two_saved)))) ->
                     keys days = TAGE).
Proof.
  destruct (load_data_snapshot two_saved (sorted_snapshot (grouped (sql_select two_saved))))
    as (H1 & H2 & _).
  - vm_compute. reflexivity.
  - split; assumption.
Defined.

Lemma load_data_rows_witness :
  keys (sorted_snapshot (grouped (sql_select two_saved))) =
    persons_in (sql_select two_saved).
Proof.
  apply (load_data_rows two_saved (sorted_snapshot (grouped (sql_select two_saved)))).
  vm_compute. reflexivity.
Defined.

(** ** Saving and deleting *)

Lemma sql_select_delete conn p :
  sql_select (sql_delete conn p) =
    filter (fun r => negb (String.eqb (fst (fst r)) p)) (sql_select conn).
Proof.
  unfold sql_select, sql_delete. cbn [verfuegbarkeit].
  induction (verfuegbarkeit conn) as [| r rows IH]; [reflexivity|].
  cbn. destruct (String.eqb (row_person r) p); cbn; now rewrite IH.
Qed.

Lemma sql_select_insert_slots p tag slots : forall conn,
  sql_select (fold_left (fun conn slot => sql_insert conn p tag slot) slots conn) =
    (sql_select conn ++ map (fun slot => (p, tag, slot)) slots)%list.
Proof.
  induction slots as [| slot slots IH]; intros conn; cbn [fold_left map].
  - now rewrite app_nil_r.
  - rewrite IH. unfold sql_select, sql_insert. cbn [verfuegbarkeit row_person row_tag row_slot].
    rewrite map_app. cbn [map row_person row_tag row_slot]. now rewrite <- app_assoc.
Qed.

Lemma sql_select_insert_all p data_dict : forall conn,
  sql_select
    (fold_left
       (fun conn item =>
          let tag := fst item in
          let slots := snd item in
          fold_left (fun conn slot => sql_insert conn p tag slot) slots conn)
       data_dict conn) =
    (sql_select conn ++ new_rows p data_dict)%list.
Proof.
  induction data_dict as [| [tag slots] d IH]; intros conn; cbn [fold_left new_rows flat_map].
  - now rewrite app_nil_r.
  - rewrite IH. cbv zeta. cbn [fst snd]. rewrite sql_select_insert_slots.
    now rewrite <- app_assoc.
Qed.

(** The rows after a save: the rows of the other persons, then the new
    rows. *)
Lemma sql_select_save conn p data_dict :
  sql_select (save_availability conn p data_dict) =
    (filter (fun r => negb (String.eqb (fst (fst r)) p)) (sql_select conn)
     ++ new_rows p data_dict)%list.
Proof.
  unfold save_availability. cbv zeta.
  now rewrite sql_select_insert_all, sql_select_delete.
Qed.

Lemma set_add_all_filter (f : string -> bool) xs : forall seen,
  set_add_all (filter f seen) (filter f xs) = filter f (set_add_all seen xs).
Proof.
  induction xs as [| x xs IH]; intros seen; cbn [filter set_add_all]; [reflexivity|].
  destruct (f x) eqn:E; cbn [set_add_all].
  - rewrite <- IH. f_equal.
    assert (Hm : mem x (filter f seen) = mem x seen).
    { destruct (mem x seen) eqn:M.
      - apply mem_In. apply filter_In. split; [now apply mem_In | exact E].
      - destruct (mem x (filter f seen)) eqn:M'; [|reflexivity].
        apply mem_In, filter_In in M' as [M' _]. apply mem_In in M'. congruence. }
    rewrite Hm. destruct (mem x seen); [reflexivity|].
    rewrite filter_app. cbn. now rewrite E.
  - rewrite <- IH. f_equal. destruct (mem x seen); [reflexivity|].
    rewrite filter_app. cbn. rewrite E. now rewrite app_nil_r.
Qed.

Lemma persons_in_filter p rows :
  persons_in (filter (fun r => negb (String.eqb (fst (fst r)) p)) rows) =
    filter (fun q => negb (String.eqb q p)) (persons_in rows).
Proof.
  unfold persons_in, set_of.
  rewrite <- (set_add_all_filter (fun q => negb (String.eqb q p)) _ []). cbn [filter].
  f_equal. induction rows as [| r rows IH]; [reflexivity|].
  cbn. destruct (String.eqb (fst (fst r)) p); cbn; now rewrite IH.
Qed.

Lemma slots_in_filter p rows q t :
  q <> p ->
  slots_in (filter (fun r => negb (String.eqb (fst (fst r)) p)) rows) q t =
    slots_in rows q t.
Proof.
  intros Hq. unfold slots_in. f_equal.
  induction rows as [| [[p' t'] x] rows IH]; [reflexivity|].
  cbn. destruct (String.eqb_spec p' p) as [-> | Hp]; cbn.
  - destruct (String.eqb_spec p q); [congruence|]. cbn. exact IH.
  - destruct (String.eqb p' q && String.eqb t' t); now rewrite IH.
Qed.

Lemma filter_map_key {V : Type} (f : string -> V) (keep : string -> bool) ks :
  filter (fun e => keep (fst e)) (map (fun q => (q, f q)) ks) =
    map (fun q => (q, f q)) (filter keep ks).
Proof.
  induction ks as [| q ks IH]; [reflexivity|].
  cbn. destruct (keep q); cbn; now rewrite IH.
Qed.

(** The rows without a person, grouped: the groups without that person. *)
Lemma grouped_filter p rows :
  grouped (filter (fun r => negb (String.eqb (fst (fst r)) p)) rows) =
    without p (grouped rows).
Proof.
  unfold without, grouped. rewrite persons_in_filter.
  rewrite (filter_map_key (days_of rows) (fun q => negb (String.eqb q p))).
  apply map_ext_in. intros q Hq. apply filter_In in Hq as [_ Hq]. f_equal.
  unfold days_of. apply map_ext. intros t. f_equal. apply slots_in_filter.
  apply negb_true_iff in Hq. now apply String.eqb_neq.
Qed.

Lemma sorted_snapshot_without p data :
  sorted_snapshot (without p data) = without p (sorted_snapshot data).
Proof.
  unfold sorted_snapshot, without. induction data as [| [q days] data IH]; [reflexivity|].
  cbn. destruct (String.eqb q p); cbn; now rewrite IH.
Qed.

(** X19: after [delete_person], [load_data] returns the snapshot it
    returned before, without that person; the other persons keep their
    order and their slots. *)
Theorem load_data_after_delete (conn : database) (person : string)
    (data : dict (dict (list string))) :
  load_data conn = Ok data ->
  load_data (delete_person conn person) = Ok (without person data).
Proof.
  intros H. destruct (load_data_inv conn data H) as (-> & Hr & Htags).
  rewrite load_data_closed. unfold delete_person. rewrite sql_select_delete.
  set (rows := sql_select conn) in *.
  set (rows' := filter (fun r => negb (String.eqb (fst (fst r)) person)) rows).
  assert (Hsub : incl rows' rows) by (intros r Hin; now apply filter_In in Hin).
  assert (E : forallb (fun r => mem (snd (fst r)) TAGE) rows' = true).
  { apply forallb_forall. intros [[p t] x] Hin. apply (proj2 (mem_In _ _)).
    apply (Htags p t x). now apply Hsub. }
  rewrite E. destruct (Forall_readable_dec (map snd rows')) as [_ | Hbad].
  - unfold rows'. now rewrite grouped_filter, sorted_snapshot_without.
  - exfalso. apply Hbad. apply Forall_forall. intros x Hx.
    apply in_map_iff in Hx as (r & <- & Hin). rewrite Forall_forall in Hr. apply Hr.
    apply in_map. now apply Hsub.
Qed.

Lemma load_data_after_delete_witness :
  load_data (delete_person two_saved "Dodi") =
    Ok (without "Dodi" (sorted_snapshot (grouped (sql_select two_saved)))).
Proof.
  apply (load_data_after_delete two_saved "Dodi"). vm_compute. reflexivity.
Defined.

(** X20: saving an availability without any slot is deleting the person. *)
Theorem save_availability_no_slots (conn : database) (person : string)
    (data_dict : dict (list string)) :
  no_slots data_dict = true ->
  save_availability conn person data_dict = delete_person conn person.
Proof.
  unfold save_availability, delete_person, no_slots. cbv zeta.
  generalize (sql_delete conn person). clear conn.
  induction data_dict as [| [tag slots] d IH]; intros conn H; [reflexivity|].
  cbn [forallb snd] in H. apply andb_prop in H as [Hs Hd].
  destruct slots; [|discriminate]. cbn [fold_left fst snd]. now apply IH.
Qed.

Lemma save_availability_no_slots_witness :
  save_availability two_saved "Dodi" (every_day []) = delete_person two_saved "Dodi".
Proof.
  apply (save_availability_no_slots two_saved "Dodi" (every_day [])). reflexivity.
Defined.

Lemma filter_new_rows p data_dict :
  filter (fun r => negb (String.eqb (fst (fst r)) p)) (new_rows p data_dict) = [].
Proof.
  unfold new_rows. induction data_dict as [| [tag slots] d IH]; [reflexivity|].
  cbn [flat_map fst snd]. rewrite filter_app, IH, app_nil_r.
  induction slots as [| x slots IHs]; [reflexivity|].
  cbn. now rewrite String.eqb_refl.
Qed.

Lemma filter_filter_same {A : Type} (f : A -> bool) l : filter f (filter f l) = filter f l.
Proof.
  induction l as [| x l IH]; [reflexivity|].
  cbn. destruct (f x) eqn:E; cbn; [rewrite E|]; now rewrite IH.
Qed.

(** X21: of two saves for the same person only the second one counts: the
    rows that [load_data] reads are those after the second save alone. *)
Theorem save_availability_twice (conn : database) (person : string)
    (first second : dict (list string)) :
  sql_select (save_availability (save_availability conn person first) person second) =
    sql_select (save_availability conn person second).
Proof.
  rewrite !sql_select_save. f_equal.
  now rewrite filter_app, filter_new_rows, app_nil_r, filter_filter_same.
Qed.

Lemma slots_in_app rows rows' p t :
  slots_in (rows ++ rows') p t = (slots_in rows p t ++ slots_in rows' p t)%list.
Proof. unfold slots_in. now rewrite filter_app, map_app. Qed.

Lemma slots_in_other rows p q t :
  (forall r, In r rows -> fst (fst r) = p) -> q <> p -> slots_in rows q t = [].
Proof.
  intros Hall Hq. unfold slots_in.
  induction rows as [| r rows IH]; [reflexivity|].
  cbn. rewrite (Hall r (or_introl eq_refl)).
  destruct (String.eqb_spec p q); [congruence|]. cbn. apply IH.
  intros r' Hr'. apply Hall. now right.
Qed.

Lemma new_rows_person p data_dict r : In r (new_rows p data_dict) -> fst (fst r) = p.
Proof.
  unfold new_rows. intros H. apply in_flat_map in H as (item & _ & H).
  apply in_map_iff in H as (slot & <- & _). reflexivity.
Qed.

Lemma new_rows_In p data_dict q t x :
  In (q, t, x) (new_rows p data_dict) ->
  q = p /\ exists slots, In (t, slots) data_dict /\ In x slots.
Proof.
  unfold new_rows. intros H. apply in_flat_map in H as ([tag slots] & Hitem & H).
  apply in_map_iff in H as (slot & [= <- <- <-] & Hslot). cbn [fst snd] in *. eauto.
Qed.

Lemma get_default_not_key {V : Type} (d : dict V) k v :
  ~ In k (keys d) -> get_default d k v = v.
Proof.
  intros H. unfold get_default.
  destruct (get d k) as [w |] eqn:E; [|reflexivity].
  apply get_In in E. exfalso. apply H. unfold keys. now apply (in_map fst) in E.
Qed.

Lemma slots_in_one_day p tag slots t :
  slots_in (map (fun slot => (p, tag, slot)) slots) p t =
    if String.eqb t tag then slots else [].
Proof.
  unfold slots_in. rewrite (String.eqb_sym t tag).
  induction slots as [| x slots IHs]; cbn [map filter fst snd].
  - now destruct (String.eqb tag t).
  - rewrite String.eqb_refl. cbn [andb].
    destruct (String.eqb tag t); cbn [map snd]; [now f_equal | exact IHs].
Qed.

Lemma slots_in_new_rows p data_dict t :
  NoDup (keys data_dict) -> slots_in (new_rows p data_dict) p t = get_default data_dict t [].
Proof.
  induction data_dict as [| [tag slots] d IH]; intros Hnd; [reflexivity|].
  inversion Hnd as [| ? ? Hnotin Hnd']; subst.
  change (new_rows p ((tag, slots) :: d))
    with (map (fun slot => (p, tag, slot)) slots ++ new_rows p d)%list.
  rewrite slots_in_app, (IH Hnd'), slots_in_one_day. unfold get_default at 2. cbn [get].
  destruct (String.eqb_spec t tag) as [-> | Hne].
  - rewrite get_default_not_key by exact Hnotin. apply app_nil_r.
  - reflexivity.
Qed.

Lemma set_add_all_present seen xs :
  (forall x, In x xs -> In x seen) -> set_add_all seen xs = seen.
Proof.
  induction xs as [| x xs IH]; intros H; cbn; [reflexivity|].
  rewrite (proj2 (mem_In x seen) (H x (or_introl eq_refl))). apply IH.
  intros y Hy. apply H. now right.
Qed.

Lemma persons_in_app_one rows rows' p :
  (forall r, In r rows' -> fst (fst r) = p) -> ~ In p (persons_in rows) ->
  persons_in (rows ++ rows') =
    (persons_in rows ++ match rows' with [] => [] | _ :: _ => [p] end)%list.
Proof.
  intros Hall Hnew. unfold persons_in, set_of in *. rewrite map_app, set_add_all_app.
  destruct rows' as [| r rows']; [cbn; now rewrite app_nil_r|].
  cbn [map set_add_all]. rewrite (Hall r (or_introl eq_refl)).
  destruct (mem p (set_add_all [] (map (fun r => fst (fst r)) rows))) eqn:M;
    [apply mem_In in M; contradiction|].
  apply set_add_all_present. intros x Hx. apply in_map_iff in Hx as (r' & <- & Hr').
  rewrite (Hall r' (or_intror Hr')). apply in_app_iff. right. now left.
Qed.

Lemma new_rows_no_slots p data_dict :
  new_rows p data_dict = [] <-> no_slots data_dict = true.
Proof.
  unfold new_rows, no_slots.
  induction data_dict as [| [tag slots] d IH]; cbn [flat_map forallb fst snd]; [tauto|].
  destruct slots as [| x slots]; cbn [map app andb]; [exact IH|].
  split; discriminate.
Qed.

(** The rows of the other persons followed by new rows of person [p],
    grouped. *)
Lemma grouped_save rows p data_dict :
  NoDup (keys data_dict) ->
  grouped (filter (fun r => negb (String.eqb (fst (fst r)) p)) rows
           ++ new_rows p data_dict) =
    (without p (grouped rows)
     ++ if no_slots data_dict then []
        else [(p, map (fun t => (t, get_default data_dict t [])) TAGE)])%list.
Proof.
  intros Hnd.
  set (A := filter (fun r => negb (String.eqb (fst (fst r)) p)) rows).
  set (B := new_rows p data_dict).
  assert (HB : forall r, In r B -> fst (fst r) = p) by apply new_rows_person.
  assert (HA : ~ In p (persons_in A)).
  { unfold A. rewrite persons_in_filter. intros H. apply filter_In in H as [_ H].
    now rewrite String.eqb_refl in H. }
  unfold grouped at 1. rewrite (persons_in_app_one A B p HB HA), map_app. f_equal.
  - rewrite <- grouped_filter. fold A. unfold grouped. apply map_ext_in.
    intros q Hq. f_equal. unfold days_of. apply map_ext. intros t. f_equal.
    rewrite slots_in_app, (slots_in_other B p q t HB); [apply app_nil_r|].
    intros ->. contradiction.
  - destruct (no_slots data_dict) eqn:E.
    + apply (proj2 (new_rows_no_slots p data_dict)) in E. fold B in E. now rewrite E.
    + destruct B as [| r B'] eqn:EB.
      * exfalso. assert (H : no_slots data_dict = true)
          by (apply (proj1 (new_rows_no_slots p data_dict)); exact EB). congruence.
      * cbn [map]. do 2 f_equal. rewrite <- EB. unfold days_of. apply map_ext.
        intros t. f_equal. rewrite slots_in_app, (slots_in_no_person A p t HA).
        cbn [app]. unfold B. now apply slots_in_new_rows.
Qed.

Lemma sorted_snapshot_app data data' :
  sorted_snapshot (data ++ data')%list = (sorted_snapshot data ++ sorted_snapshot data')%list.
Proof. unfold sorted_snapshot. apply map_app. Qed.

(** X18: after [save_availability] for a person, with weekdays as keys
    and readable labels, [load_data] returns the other persons as before
    and, last, the person saved with the slots saved, sorted, on each of
    the five weekdays; the person is absent when no slot was saved. *)
Theorem load_data_after_save (conn : database) (person : string)
    (data_dict : dict (list string)) (data : dict (dict (list string))) :
  load_data conn = Ok data ->
  NoDup (keys data_dict) -> incl (keys data_dict) TAGE ->
  Forall readable (flat_map snd data_dict) ->
  load_data (save_availability conn person data_dict) =
    Ok (without person data
        ++ if no_slots data_dict then [] else [(person, saved_days data_dict)])%list.
Proof.
  intros H Hnd Htag Hread. destruct (load_data_inv conn data H) as (-> & Hr & Htags).
  rewrite load_data_closed, sql_select_save.
  set (rows := sql_select conn) in *.
  set (A := filter (fun r => negb (String.eqb (fst (fst r)) person)) rows).
  assert (HA : incl A rows) by (intros r Hin; now apply filter_In in Hin).
  assert (E : forallb (fun r => mem (snd (fst r)) TAGE) (A ++ new_rows person data_dict)
              = true).
  { apply forallb_forall. intros [[p t] x] Hin. apply (proj2 (mem_In _ _)). cbn [fst snd].
    apply in_app_iff in Hin as [Hin | Hin].
    - apply (Htags p t x). now apply HA.
    - apply new_rows_In in Hin as (_ & slots & Hitem & _). apply Htag.
      unfold keys. now apply (in_map fst) in Hitem. }
  rewrite E.
  destruct (Forall_readable_dec (map snd (A ++ new_rows person data_dict))) as [_ | Hbad].
  - f_equal. unfold A. rewrite grouped_save by exact Hnd.
    rewrite sorted_snapshot_app, sorted_snapshot_without. f_equal.
    destruct (no_slots data_dict); [reflexivity|].
    unfold sorted_snapshot, saved_days. cbn [map fst snd]. now rewrite map_map.
  - exfalso. apply Hbad. apply Forall_forall. intros x Hx.
    apply in_map_iff in Hx as ([[p t] x'] & <- & Hin). cbn [snd].
    apply in_app_iff in Hin as [Hin | Hin].
    + rewrite Forall_forall in Hr. apply Hr. apply HA in Hin.
      now apply (in_map snd) in Hin.
    + apply new_rows_In in Hin as (_ & slots & Hitem & Hx).
      rewrite Forall_forall in Hread. apply Hread. apply in_flat_map.
      exists (t, slots). auto.
Qed.

Lemma load_data_after_save_witness :
  load_data (save_availability two_saved "Dodi" [("Dienstag", ["14:00-14:30"; "9:00-9:30"])]) =
    Ok (without "Dodi" (sorted_snapshot (grouped (sql_select two_saved)))
        ++ if no_slots [("Dienstag", ["14:00-14:30"; "9:00-9:30"])] then []
           else [("Dodi", saved_days [("Dienstag", ["14:00-14:30"; "9:00-9:30"])])])%list.
Proof.
  apply (load_data_after_save two_saved "Dodi" [("Dienstag", ["14:00-14:30"; "9:00-9:30"])]).
  - vm_compute. reflexivity.
  - apply keys_NoDup_check. reflexivity.
  - intros t Ht. cbv in Ht. destruct Ht as [<- | []]. cbv. tauto.
  - repeat constructor; eexists; vm_compute; reflexivity.
Defined.

(** X22: any two or more persons chosen from a snapshot that [load_data]
    returned can be passed to [find_common_slots] with meeting length 30:
    the call raises nothing and returns the five weekdays. *)
Theorem find_common_slots_of_loaded {order : SetOrder} (conn : database)
    (data subset : dict (dict (list string))) :
  load_data conn = Ok data ->
  NoDup (keys subset) -> incl subset data -> (2 <= List.length subset)%nat ->
  exists common_per_day,
    find_common_slots subset 30 = Ok common_per_day /\ keys common_per_day = TAGE.
Proof.
  intros H Hnd Hincl Hlen.
  destruct (load_data_well_formed conn data H) as (_ & Hdays & Hread & _).
  destruct (length_ge_2 _ Hlen) as [Hlt Hne].
  assert (Hdays' : all_weekdays subset).
  { apply keys_TAGE_all_weekdays. intros p days Hin. apply (Hdays p). now apply Hincl. }
  assert (Hread' : Forall readable (all_labels subset)).
  { apply Forall_forall. intros x Hx. rewrite Forall_forall in Hread. apply Hread.
    unfold all_labels in *. apply in_flat_map in Hx as (e & He & Hx).
    apply in_flat_map. exists e. split; [now apply Hincl | exact Hx]. }
  destruct (map_each_total (day_blocks subset 30) TAGE) as [vs Hvs].
  { intros tag Htag. now apply day_blocks_30_total. }
  exists (combine TAGE vs). rewrite find_common_slots_unfold, Hlt, Hvs.
  split; [reflexivity|]. apply keys_combine. now apply map_each_length in Hvs.
Qed.

Lemma find_common_slots_of_loaded_witness :
  exists common_per_day,
    @find_common_slots insertion_order (sorted_snapshot (grouped (sql_select two_saved))) 30
      = Ok common_per_day
    /\ keys common_per_day = TAGE.
Proof.
  apply (@find_common_slots_of_loaded insertion_order two_saved
           (sorted_snapshot (grouped (sql_select two_saved)))).
  - vm_compute. reflexivity.
  - apply keys_NoDup_check. reflexivity.
  - intros e He. exact He.
  - cbn. lia.
Defined.

Lemma slot_to_minutes_value_error_witness :
  slot_to_minutes "mittags" = Raise ValueError /\ ValueError = ValueError.
Proof.
  split; [reflexivity|].
  apply (slot_to_minutes_value_error "mittags" ValueError). reflexivity.
Defined.

(** ** The set order *)

Lemma day_blocks_any_order (order order' : SetOrder) selected_data meeting_length tag :
  NoDup (keys selected_data) -> selected_data <> [] ->
  distinct_starts selected_data ->
  @day_blocks order selected_data meeting_length tag =
    @day_blocks order' selected_data meeting_length tag.
Proof.
  intros Hnd Hne Hd. unfold day_blocks.
  rewrite !common_halfhours_unfold by assumption.
  destruct (forallb (has_day tag) selected_data) eqn:Hall; [|reflexivity].
  assert (Hs : distinct_starts_in (seeded_intersection tag selected_data)).
  { intros x y k Hx Hy. apply Hd; now apply (seeded_intersection_labels tag). }
  now rewrite !sorted_set_iter by exact Hs.
Qed.

(** X23: Python does not say in which order a set is iterated.  For a
    snapshot in which no two labels share a start, the result of
    [find_common_slots] does not depend on that order. *)
Theorem find_common_slots_any_order (order order' : SetOrder)
    (selected_data : dict (dict (list string))) (meeting_length : Z) :
  NoDup (keys selected_data) -> distinct_starts selected_data ->
  @find_common_slots order selected_data meeting_length =
    @find_common_slots order' selected_data meeting_length.
Proof.
  intros Hnd Hd. rewrite !find_common_slots_unfold.
  destruct (List.length (keys selected_data) <? 2)%nat eqn:E; [reflexivity|].
  f_equal. apply map_each_ext. intros tag _.
  apply day_blocks_any_order; try assumption.
  intros ->. discriminate.
Qed.

Lemma find_common_slots_any_order_witness :
  @find_common_slots insertion_order three_persons 30 =
    @find_common_slots reverse_order three_persons 30.
Proof.
  apply (find_common_slots_any_order insertion_order reverse_order three_persons 30).
  - apply keys_NoDup_check. reflexivity.
  - apply distinct_startsb_spec. vm_compute. reflexivity.
Defined.
